(** * OpenClimate data viewer: target emissions, aggregation, reconciliation

    A shallow embedding of the computational parts of [app.py]: the pledge
    lookup behind [st.cache], the two target-emissions functions, the
    per-country plotting loop, the by-year aggregation of subnational
    inventories and the national-minus-subnational difference.

    Numbers.  Emissions and percentages are Python/NumPy floats in the
    program.  They are modelled here as rationals ([Q], compared with [==]),
    and products, quotients and differences are written with the exact
    operations of [Q]; statements about them follow the program's operations
    one by one, in the program's order.  The conversion of integers to
    floats is modelled with its rounding ([round_to_float]), and the
    aggregation is also given over an arbitrary addition ([df_sum_with]),
    with rounded binary64 addition ([fadd64]) as an instance.  The [year]
    column is an integer column ([Z]).

    Tables.  A [DataFrame] is the list of its rows in storage order, each row
    carrying its index label.  A [Series] is a list of (label, value) pairs.
    Every cell holds a value: missing entries (NaN) are outside the model. *)

From Stdlib Require Import ZArith QArith Qfield Qabs Qround Lia Lqa List Permutation Sorted Ascii String.
From stdpp Require Import gmap strings list fin_maps.

Open Scope string_scope.
Open Scope Z_scope.

(** ** Python values and exceptions *)

(** The scalar values a JSON document can put in a field of a pledge. *)
Inductive pyval :=
| PNone
| PBool (b : bool)
| PInt (z : Z)
| PFloat (q : Q)
| PStr (s : string).

Inductive exn :=
| IndexError
| KeyError (key : string)
| TypeError
| ValueError
| OverflowError
| NameError (name : string)
| RequestException (what : string).

Inductive result (A : Type) :=
| Ok (a : A)
| Raise (e : exn).
Arguments Ok {A} a.
Arguments Raise {A} e.

Definition is_ok {A} (r : result A) : bool :=
  match r with Ok _ => true | Raise _ => false end.

Definition result_map {A B} (f : A -> B) (r : result A) : result B :=
  match r with Ok a => Ok (f a) | Raise e => Raise e end.

(** JSON numbers and booleans: the values Python treats as numbers. *)
Definition is_number (v : pyval) : bool :=
  match v with
  | PBool _ | PInt _ | PFloat _ => true
  | PNone | PStr _ => false
  end.

(** ** Integers as floats *)

(** The binary64 value nearest to the integer [z], ties to even, as an
    integer: up to 2^53 every integer is a float; above, the 53 leading bits
    are kept and the rest is rounded. *)
Definition round_to_float (z : Z) : Z :=
  let a := Z.abs z in
  if a <=? 2 ^ 53 then z
  else
    let shift := Z.log2 a - 52 in
    let q := a / 2 ^ shift in
    let r := a mod 2 ^ shift in
    let half := 2 ^ (shift - 1) in
    let q' := if r <? half then q
              else if half <? r then q + 1
              else if Z.even q then q else q + 1 in
    Z.sgn z * (q' * 2 ^ shift).

(** A cell of the integer [year] column converted to float, as NumPy does
    before comparing the column with a float. *)
Definition year_as_float (y : Z) : Q := inject_Z (round_to_float y).

(** [float(z)] on a Python integer: the nearest float, or [OverflowError]
    when that would lie beyond the largest finite float. *)
Definition float_of_int (z : Z) : result Q :=
  let f := round_to_float z in
  if Z.abs f <? 2 ^ 1024 then Ok (inject_Z f) else Raise OverflowError.

(** Numbers on which the raw value and its [float] select the same years: a
    boolean, a float, or an integer of magnitude below 2^53. *)
Definition exact_number (v : pyval) : bool :=
  match v with
  | PBool _ | PFloat _ => true
  | PInt z => Z.abs z <? 2 ^ 53
  | PNone | PStr _ => false
  end.

(** A pledge is one element of the [targets] array: a Python dict. *)
Abbreviation pledge := (gmap string pyval).

(** ** Tables *)

Record row := Row {
  idx : Z;
  actor : string;
  year : Z;
  total_emissions : Q
}.

Definition DataFrame := list row.
Definition Series (A : Type) := list (Z * A).

(** [.values]: the underlying array of a series. *)
Definition values {A} (s : Series A) : list A := map snd s.

(** [data['year']] and [data['total_emissions']]. *)
Definition col_year (data : DataFrame) : Series Z :=
  map (fun r => (idx r, year r)) data.
Definition col_total_emissions (data : DataFrame) : Series Q :=
  map (fun r => (idx r, total_emissions r)) data.

(** [series * scalar], element by element. *)
Definition series_mul (s : Series Q) (k : Q) : Series Q :=
  map (fun e => (fst e, (snd e * k)%Q)) s.

(** One cell of [data['year'] == v].  An integer column compared with an
    integer or a boolean compares the integers ([True] counts as 1); compared
    with a float it is first converted to float; compared with [None] or
    with a string every cell is [False]. *)
Definition year_eq_scalar (y : Z) (v : pyval) : bool :=
  match v with
  | PNone => false
  | PBool b => y =? (if b then 1 else 0)
  | PInt z => y =? z
  | PFloat q => Qeq_bool (year_as_float y) q
  | PStr _ => false
  end.

(** [data['year'] == v]: the boolean mask, in row order. *)
Definition year_mask (data : DataFrame) (v : pyval) : list bool :=
  map (fun r => year_eq_scalar (year r) v) data.

(** [data.loc[mask, 'total_emissions']] for a mask built from [data] itself:
    the rows whose mask cell is [True], with their labels. *)
Definition loc_total_emissions (data : DataFrame) (mask : list bool) : Series Q :=
  map (fun rm => (idx (fst rm), total_emissions (fst rm)))
      (filter (fun rm => snd rm = true) (combine data mask)).

(** [unfccc.loc[unfccc['actor'] == actor_id]]. *)
Definition loc_actor (df : DataFrame) (actor_id : string) : DataFrame :=
  filter (fun r => actor r = actor_id) df.

(** [xs[0]] and [xs[-1]] on a Python list. *)
Definition getitem_first {A} (xs : list A) : result A :=
  match xs with
  | [] => Raise IndexError
  | x :: _ => Ok x
  end.

Definition getitem_last {A} (xs : list A) : result A :=
  match last xs with
  | None => Raise IndexError
  | Some x => Ok x
  end.

(** [d[k]] on a Python dict. *)
Definition getitem_key (d : pledge) (k : string) : result pyval :=
  match d !! k with
  | Some v => Ok v
  | None => Raise (KeyError k)
  end.

(** ** The world: remote API, memo cache, requests sent, plot calls issued *)

(** The arguments of one [ax.plot] call of the country chart. *)
Inductive plot_call :=
| PlotEmissions (x : Series Z) (y : Series Q) (label : string)
| PlotTargetLevel (x : Q * Z) (y : Series Q * Series Q) (label : string).

(** [remote url] stands for
    [requests.get(url, headers=headers).json()['data']['targets']]:
    what the server answers now, or the exception raised on the way. *)
Record world := World {
  remote : string -> result (list pledge);
  pledge_cache : gmap string (list pledge);
  http_log : list string;
  plot_calls : list plot_call
}.

(** Computations that read and update the world and may raise. *)
Definition M (A : Type) : Type := world -> result A * world.

Definition ret {A} (a : A) : M A := fun w => (Ok a, w).

Definition bind {A B} (m : M A) (k : A -> M B) : M B := fun w =>
  match m w with
  | (Ok a, w') => k a w'
  | (Raise e, w') => (Raise e, w')
  end.

Definition lift {A} (r : result A) : M A := fun w => (r, w).

Notation "'let*' x := m 'in' k" := (bind m (fun x => k))
  (at level 10, x name, m at level 100, k at level 200).

(** ** Data access *)

Definition server : string := "https://openclimate.network".

Definition actor_url (actor_id : string) : string :=
  server ++ "/api/v1/actor/" ++ actor_id.

(** [get_actor_pledge] under [@st.cache]: a call with an argument seen
    before returns the stored list; otherwise the body runs, which sends one
    request, and its return value is stored.  A raising body stores nothing. *)
Definition get_actor_pledge (actor_id : string) : M (list pledge) := fun w =>
  match pledge_cache w !! actor_id with
  | Some targets => (Ok targets, w)
  | None =>
      let url := actor_url actor_id in
      let w1 := World (remote w) (pledge_cache w) (http_log w ++ [url]) (plot_calls w) in
      match remote w url with
      | Ok targets =>
          (Ok targets,
           World (remote w) (<[actor_id := targets]> (pledge_cache w))
                 (http_log w1) (plot_calls w))
      | Raise e => (Raise e, w1)
      end
  end.

Record target_dict := TargetDict {
  target_emissions : Series Q;
  baseline_year : Q
}.

Definition conversion : Q := 1 / 1000000000.

Section App.

(** [float(s)] on a string is a Python builtin: [Some q] when [s] is a
    numeric literal, [None] when [float] raises [ValueError]. *)
Variable float_of_str : string -> option Q.

(** The plotting surface: what one [ax.plot] call returns or raises. *)
Variable ax_plot : plot_call -> result unit.

Definition py_float (v : pyval) : result Q :=
  match v with
  | PNone => Raise TypeError
  | PBool b => Ok (if b then 1 else 0)%Q
  | PInt z => float_of_int z
  | PFloat q => Ok q
  | PStr s =>
      match float_of_str s with
      | Some q => Ok q
      | None => Raise ValueError
      end
  end.

(** ** Target computation *)

Definition get_target_emissions (data : DataFrame) (actor_id : string)
  : M (Series Q) :=
  let* pledges := get_actor_pledge actor_id in
  let* p0 := lift (getitem_first pledges) in
  let* baseline_year := lift (getitem_key p0 "baseline_year") in
  let* p0' := lift (getitem_first pledges) in
  let* tv := lift (getitem_key p0' "target_value") in
  let* target_value := lift (py_float tv) in
  let baseline_emissions :=
    loc_total_emissions data (year_mask data baseline_year) in
  let target_emissions :=
    series_mul baseline_emissions ((100 - target_value) / 100)%Q in
  ret target_emissions.

Definition get_target_emissions_dict (data : DataFrame) (actor_id : string)
  : M target_dict :=
  let* pledges := get_actor_pledge actor_id in
  let* p0 := lift (getitem_first pledges) in
  let* by_raw := lift (getitem_key p0 "baseline_year") in
  let* baseline_year := lift (py_float by_raw) in
  let* p0' := lift (getitem_first pledges) in
  let* tv := lift (getitem_key p0' "target_value") in
  let* target_value := lift (py_float tv) in
  let baseline_emissions :=
    loc_total_emissions data (year_mask data (PFloat baseline_year)) in
  let target_emissions :=
    series_mul baseline_emissions ((100 - target_value) / 100)%Q in
  ret (TargetDict target_emissions baseline_year).

(** ** The country chart *)

(** One [ax.plot(...)] call: the call is issued, and what it returns or
    raises is up to the plotting surface. *)
Definition plot (c : plot_call) : M unit := fun w =>
  (ax_plot c,
   World (remote w) (pledge_cache w) (http_log w) (plot_calls w ++ [c])).

(** The body of [for actor_id in country_codes]: the statements that compute
    and plot data.  The axis limits and styling calls are left out. *)
Definition country_container_body (unfccc : DataFrame) (actor_id : string)
  : M unit :=
  let data := loc_actor unfccc actor_id in
  let* target_dict := get_target_emissions_dict data actor_id in
  let target_emissions' := series_mul (target_emissions target_dict) conversion in
  let baseline_year' := baseline_year target_dict in
  let* _ := plot (PlotEmissions (col_year data)
                    (series_mul (col_total_emissions data) conversion)
                    actor_id) in
  let* last_year := lift (getitem_last (values (col_year data))) in
  plot (PlotTargetLevel (baseline_year', last_year)
          (target_emissions', target_emissions')
          (actor_id ++ " target level")).

Fixpoint country_container (unfccc : DataFrame) (country_codes : list string)
  : M unit :=
  match country_codes with
  | [] => ret tt
  | actor_id :: rest =>
      let* _ := country_container_body unfccc actor_id in
      country_container unfccc rest
  end.

End App.

(** ** Aggregation by year *)

(** [groupby(by=['year']).sum()] keeps one running total per key, keys in
    ascending order; each row is added to the total of its year. *)
Fixpoint add_to_group (y : Z) (v : Q) (groups : list (Z * Q)) : list (Z * Q) :=
  match groups with
  | [] => [(y, v)]
  | (y', s) :: rest =>
      if y <? y' then (y, v) :: groups
      else if y =? y' then (y', (s + v)%Q) :: rest
      else (y', s) :: add_to_group y v rest
  end.

(** [df[['year', 'total_emissions']].groupby(by=['year']).sum().reset_index()]:
    the rows (year, total_emissions) of [df_sum], under a fresh range index. *)
Definition df_sum (df : DataFrame) : list (Z * Q) :=
  fold_left (fun groups r => add_to_group (year r) (total_emissions r) groups)
            df [].

(** ** National total against the sum of subnationals *)

(** [a - b] on one-dimensional NumPy arrays: element by element when the
    lengths agree, an array of length one is stretched to the other's length,
    anything else raises. *)
Definition np_subtract (a b : list Q) : result (list Q) :=
  if (length a =? length b)%nat then Ok (zip_with Qminus a b)
  else match a, b with
       | _, [y] => Ok (map (fun x => (x - y)%Q) a)
       | [x], _ => Ok (map (fun y => (x - y)%Q) b)
       | _, _ => Raise ValueError
       end.

(** [country_total = data['total_emissions'] * conversion]. *)
Definition country_total (data : DataFrame) : Series Q :=
  series_mul (col_total_emissions data) conversion.

(** [subnational_total = df_sum.total_emissions * conversion], as an array. *)
Definition subnational_total (sums : list (Z * Q)) : list Q :=
  map (fun r => (snd r * conversion)%Q) sums.

(** [difference = country_total.values - subnational_total.values]. *)
Definition difference (data : DataFrame) (sums : list (Z * Q))
  : result (list Q) :=
  np_subtract (values (country_total data)) (subnational_total sums).

(** The points of [ax.plot(data['year'], difference)]: the i-th value is
    drawn at the i-th year of the national rows. *)
Definition difference_series (data : DataFrame) (d : list Q) : list (Z * Q) :=
  combine (values (col_year data)) d.

(** The larger of two numbers. *)
Definition Qmax2 (a b : Q) : Q := if Qle_bool a b then b else a.

(** [series.max()]: the largest value; nothing (NaN) for an empty series. *)
Fixpoint series_max (xs : list Q) : option Q :=
  match xs with
  | [] => None
  | x :: rest =>
      Some (match series_max rest with
            | None => x
            | Some m => Qmax2 x m
            end)
  end.

(** [array.max()] on a NumPy array: raises on an empty array. *)
Definition np_max (xs : list Q) : result Q :=
  match series_max xs with
  | Some m => Ok m
  | None => Raise ValueError
  end.

(** The reconciliation view for the selected country, as far as it
    computes and can raise.  [ymax] of the first chart is the largest
    national value, NaN without national rows, and [ax.set_ylim([0, ymax])]
    raises [ValueError] on NaN.  The two [if actor_id == ...] statements
    choose the subnational inventory; for any other code [subnational_total]
    is unbound when the difference reads it.  Then come the subtraction,
    [abs(difference).max()], and [ax.plot(data['year'], difference)], which
    raises [ValueError] unless there is one value per national year. *)
Definition subnational_container
    (unfccc df_eccc df_epa : DataFrame) (actor_id : string)
  : result (list (Z * Q)) :=
  let data := loc_actor unfccc actor_id in
  let sums0 : option (list (Z * Q)) := None in
  let sums1 := if decide (actor_id = "CA") then Some (df_sum df_eccc) else sums0 in
  let sums2 := if decide (actor_id = "US") then Some (df_sum df_epa) else sums1 in
  match series_max (values (country_total data)) with
  | None => Raise ValueError
  | Some ymax =>
      match sums2 with
      | None => Raise (NameError "subnational_total")
      | Some sums =>
          match difference data sums with
          | Raise e => Raise e
          | Ok d =>
              match np_max (map Qabs d) with
              | Raise e => Raise e
              | Ok ymax' =>
                  if (length (values (col_year data)) =? length d)%nat
                  then Ok (difference_series data d)
                  else Raise ValueError
              end
          end
      end
  end.

(** ** Year-indexed views used to state the properties *)

(** The value a year-indexed list gives for [y] (first row of that year). *)
Fixpoint series_at (s : list (Z * Q)) (y : Z) : option Q :=
  match s with
  | [] => None
  | (y', v) :: rest => if y' =? y then Some v else series_at rest y
  end.

(** The national series, year to converted total. *)
Definition national_series (data : DataFrame) : list (Z * Q) :=
  map (fun r => (year r, (total_emissions r * conversion)%Q)) data.

(** The aggregated series, year to converted sum. *)
Definition aggregated_series (sums : list (Z * Q)) : list (Z * Q) :=
  map (fun r => (fst r, (snd r * conversion)%Q)) sums.

(** Sum of [total_emissions] over the rows of year [y]. *)
Definition year_total (df : DataFrame) (y : Z) : Q :=
  fold_right (fun r acc => (total_emissions r + acc)%Q) 0%Q
             (filter (fun r => year r = y) df).

(** ** A string-to-float instance: plain decimal literals *)

Definition digit_of_ascii (c : ascii) : option Z :=
  let n := Z.of_nat (nat_of_ascii c) in
  if (48 <=? n) && (n <=? 57) then Some (n - 48) else None.

(** Reads digits up to the end or a point; returns the integer read, the
    number of digits, and what follows the point if there is one. *)
Fixpoint read_digits (s : string) (acc : Z) (n : nat)
  : option (Z * nat * option string) :=
  match s with
  | EmptyString => Some (acc, n, None)
  | String c rest =>
      if Ascii.eqb c "."%char then Some (acc, n, Some rest)
      else match digit_of_ascii c with
           | Some d => read_digits rest (10 * acc + d) (S n)
           | None => None
           end
  end.

Definition unsigned_decimal (s : string) : option Q :=
  match read_digits s 0 0%nat with
  | Some (i, ni, None) => if (ni =? 0)%nat then None else Some (inject_Z i)
  | Some (i, ni, Some frac) =>
      match read_digits frac 0 0%nat with
      | Some (f, nf, None) =>
          if (ni + nf =? 0)%nat then None
          else Some (inject_Z i + inject_Z f / inject_Z (10 ^ Z.of_nat nf))%Q
      | _ => None
      end
  | None => None
  end.

(** [float_of_decimal s]: an optional sign, digits, an optional point and
    more digits.  One possible [float_of_str]; exponents, [inf], [nan],
    underscores and surrounding blanks are not read by it. *)
Definition float_of_decimal (s : string) : option Q :=
  match s with
  | String "-"%char rest => option_map Qopp (unsigned_decimal rest)
  | String "+"%char rest => unsigned_decimal rest
  | _ => unsigned_decimal s
  end.

(** A plotting surface that accepts every call. *)
Definition ax_plot_accept (c : plot_call) : result unit := Ok tt.

(** ** Concrete inputs used in the scenarios *)

Definition mk_pledge (fields : list (string * pyval)) : pledge :=
  list_to_map fields.

(** A fresh process: nothing cached, nothing sent, nothing plotted; the
    server answers every request with [targets]. *)
Definition fresh_world (targets : list pledge) : world :=
  World (fun _ => Ok targets) ∅ [] [].

Definition pledge_2005_30 : pledge :=
  mk_pledge [("baseline_year", PInt 2005); ("target_value", PInt 30)].

Definition pledge_null_baseline : pledge :=
  mk_pledge [("baseline_year", PNone); ("target_value", PInt 30)].

Definition pledge_string_baseline : pledge :=
  mk_pledge [("baseline_year", PStr "2005"); ("target_value", PInt 30)].

(** Years at the edge of the integers that floats tell apart. *)
Definition national_big_years : DataFrame :=
  [Row 0 "CA" (2 ^ 53) 100; Row 1 "CA" (2 ^ 53 + 1) 90].

Definition pledge_big_baseline : pledge :=
  mk_pledge [("baseline_year", PInt (2 ^ 53 + 1)); ("target_value", PInt 30)].

Definition national_2005_2010 : DataFrame :=
  [Row 0 "CA" 2005 100; Row 1 "CA" 2010 90].

Definition national_2010_2011 : DataFrame :=
  [Row 7 "CA" 2010 100; Row 8 "CA" 2011 95].

Definition subnational_2011_2012 : DataFrame :=
  [Row 0 "ON" 2011 40; Row 1 "QC" 2011 30; Row 2 "ON" 2012 60].

Definition subnational_2010 : DataFrame :=
  [Row 0 "ON" 2010 40; Row 1 "QC" 2010 30].

Definition subnational_2010_2011 : DataFrame :=
  [Row 0 "ON" 2010 40; Row 1 "QC" 2010 30; Row 2 "ON" 2011 42].


(** ** The target functions as functions of the pledge list

    Both target functions first obtain the pledge list and then compute from
    it alone; these are the two computations. *)

Section OfPledges.

Variable float_of_str : string -> option Q.

(** What the dict-returning function computes from the pledge list. *)
Definition dict_of_pledges (data : DataFrame) (pledges : list pledge)
  : result target_dict :=
  match pledges with
  | [] => Raise IndexError
  | p0 :: _ =>
      match p0 !! "baseline_year" with
      | None => Raise (KeyError "baseline_year")
      | Some by_raw =>
          match py_float float_of_str by_raw with
          | Raise e => Raise e
          | Ok Y =>
              match p0 !! "target_value" with
              | None => Raise (KeyError "target_value")
              | Some tv =>
                  match py_float float_of_str tv with
                  | Raise e => Raise e
                  | Ok P =>
                      Ok (TargetDict
                            (series_mul
                               (loc_total_emissions data (year_mask data (PFloat Y)))
                               ((100 - P) / 100)%Q)
                            Y)
                  end
              end
          end
      end
  end.

(** What the series-returning function computes from the pledge list. *)
Definition series_of_pledges (data : DataFrame) (pledges : list pledge)
  : result (Series Q) :=
  match pledges with
  | [] => Raise IndexError
  | p0 :: _ =>
      match p0 !! "baseline_year" with
      | None => Raise (KeyError "baseline_year")
      | Some by_raw =>
          match p0 !! "target_value" with
          | None => Raise (KeyError "target_value")
          | Some tv =>
              match py_float float_of_str tv with
              | Raise e => Raise e
              | Ok P =>
                  Ok (series_mul
                        (loc_total_emissions data (year_mask data by_raw))
                        ((100 - P) / 100)%Q)
              end
          end
      end
  end.

End OfPledges.

(** Looking the pledges up and then computing from the list alone. *)
Definition after_lookup {A} (f : list pledge -> result A) (actor_id : string)
  : M A := fun w =>
  match get_actor_pledge actor_id w with
  | (Ok pledges, w') => (f pledges, w')
  | (Raise e, w') => (Raise e, w')
  end.

(** [groups] holds, in ascending order of year, one running total for each
    year of the rows [seen], equal to the sum over the rows of that year. *)
Definition totals_of (seen : DataFrame) (groups : list (Z * Q)) : Prop :=
  StronglySorted Z.lt (map fst groups) /\
  (forall y, In y (map fst groups) <-> In y (map year seen)) /\
  (forall y s, In (y, s) groups -> s == year_total seen y).


(** ** Further parts of the program *)

(** What a lookup of [actor_id] returns in world [w]: the stored list when
    there is one, the server's answer otherwise. *)
Definition pledges_for (w : world) (actor_id : string) : result (list pledge) :=
  match pledge_cache w !! actor_id with
  | Some targets => Ok targets
  | None => remote w (actor_url actor_id)
  end.

(** A row of the [countries] table. *)
Record actor_row := ActorRow {
  a_idx : Z;
  a_actor : string;
  a_name : string
}.

(** [countries.loc[countries['name'].isin(options), 'actor']]. *)
Definition country_codes (countries : list actor_row) (options : list string)
  : Series string :=
  map (fun c => (a_idx c, a_actor c))
      (filter (fun c => a_name c ∈ options) countries).

(** [countries.loc[countries['name'] == option, 'actor'].values[0]]. *)
Definition selected_actor (countries : list actor_row) (option : string)
  : result string :=
  getitem_first
    (values (map (fun c => (a_idx c, a_actor c))
                 (filter (fun c => a_name c = option) countries))).

(** [ymax = ymax_tmp if ymax_tmp > ymax else ymax]; a comparison with NaN
    is false. *)
Definition ymax_update (ymax : Q) (ymax_tmp : option Q) : Q :=
  match ymax_tmp with
  | Some t => if Qle_bool t ymax then ymax else t
  | None => ymax
  end.

(** The value of [ymax] in the country chart after the loop went through
    [country_codes]: it starts at 0.1 and each actor's largest converted
    emission is compared with it. *)
Definition country_ymax (unfccc : DataFrame) (country_codes : list string) : Q :=
  fold_left
    (fun ymax actor_id =>
       let data := loc_actor unfccc actor_id in
       ymax_update ymax
         (series_max (values (series_mul (col_total_emissions data) conversion))))
    country_codes (1 / 10)%Q.

(** [ymax] of the difference chart: [abs(difference).max()], then one
    comparison per subnational actor, in the order [actors] in which
    [set(df.actor)] yields them. *)
Definition difference_ymax (d : list Q) (df : DataFrame) (actors : list string)
  : result Q :=
  match np_max (map Qabs d) with
  | Raise e => Raise e
  | Ok ymax0 =>
      Ok (fold_left
            (fun ymax actor_id =>
               let subnat_data := loc_actor df actor_id in
               ymax_update ymax
                 (series_max
                    (values (series_mul (col_total_emissions subnat_data)
                                        conversion))))
            actors ymax0)
  end.


(** The rows of [data] whose year is the number [Y], in order. *)
Definition rows_of_year (data : DataFrame) (Y : Q) : list row :=
  List.filter (fun r => Qeq_bool (year_as_float (year r)) Y) data.

(** One subnational line of the difference chart: its x and y values and
    its legend label, if it has one. *)
Record subnational_line := SubnationalLine {
  line_x : Series Z;
  line_y : Series Q;
  line_label : option string
}.

(** The loop [for actor in set(df.actor)] of the difference chart, as far
    as it draws: [ind] starts at 1, the line drawn while [ind == 1] gets the
    label and increments [ind], every later line is drawn without label.
    [actors] is the order in which the set yields the actors. *)
Definition subnational_lines (df : DataFrame) (actors : list string)
  : Z * list subnational_line :=
  fold_left
    (fun st actor_id =>
       let subnat_data := loc_actor df actor_id in
       let subnat_emissions :=
         series_mul (col_total_emissions subnat_data) conversion in
       if fst st =? 1
       then (fst st + 1,
             (snd st ++ [SubnationalLine (col_year subnat_data)
                           subnat_emissions (Some "Subnational")])%list)
       else (fst st,
             (snd st ++ [SubnationalLine (col_year subnat_data)
                           subnat_emissions None])%list))
    actors (1, []).

(** ** Aggregation over any addition, and binary64 addition *)












(** * Properties *)

(** ** Running the target functions *)

Section TargetFacts.

Variable float_of_str : string -> option Q.
Variable ax_plot : plot_call -> result unit.

Lemma get_target_emissions_dict_run data actor_id w :
  get_target_emissions_dict float_of_str data actor_id w =
  match get_actor_pledge actor_id w with
  | (Ok pledges, w') => (dict_of_pledges float_of_str data pledges, w')
  | (Raise e, w') => (Raise e, w')
  end.
Proof.
  unfold get_target_emissions_dict, bind at 1.
  destruct (get_actor_pledge actor_id w) as [[pledges|e] w']; [|reflexivity].
  unfold dict_of_pledges, bind, lift, ret, getitem_key.
  destruct pledges as [|p0 rest]; simpl; [reflexivity|].
  destruct (p0 !! "baseline_year") as [by_raw|]; [|reflexivity].
  destruct (py_float float_of_str by_raw) as [Y|e]; [|reflexivity].
  destruct (p0 !! "target_value") as [tv|]; [|reflexivity].
  destruct (py_float float_of_str tv) as [P|e]; reflexivity.
Qed.

Lemma get_target_emissions_run data actor_id w :
  get_target_emissions float_of_str data actor_id w =
  match get_actor_pledge actor_id w with
  | (Ok pledges, w') => (series_of_pledges float_of_str data pledges, w')
  | (Raise e, w') => (Raise e, w')
  end.
Proof.
  unfold get_target_emissions, bind at 1.
  destruct (get_actor_pledge actor_id w) as [[pledges|e] w']; [|reflexivity].
  unfold series_of_pledges, bind, lift, ret, getitem_key.
  destruct pledges as [|p0 rest]; simpl; [reflexivity|].
  destruct (p0 !! "baseline_year") as [by_raw|]; [|reflexivity].
  destruct (p0 !! "target_value") as [tv|]; [|reflexivity].
  destruct (py_float float_of_str tv) as [P|e]; reflexivity.
Qed.

(** Selecting with a mask built from the frame keeps the matching rows. *)
Lemma loc_total_emissions_mask data v :
  loc_total_emissions data (year_mask data v) =
  map (fun r => (idx r, total_emissions r))
      (List.filter (fun r => year_eq_scalar (year r) v) data).
Proof.
  unfold loc_total_emissions, year_mask.
  induction data as [|r data IH]; [reflexivity|].
  cbn [map combine List.filter]. rewrite filter_cons. cbn [snd fst].
  destruct (year_eq_scalar (year r) v) eqn:E.
  - rewrite decide_True by reflexivity. cbn [map]. f_equal. exact IH.
  - rewrite decide_False by discriminate. exact IH.
Qed.

Lemma filter_none {A} (f : A -> bool) (l : list A) :
  Forall (fun x => f x = false) l -> List.filter f l = [].
Proof.
  induction 1 as [|x l Hx _ IH]; [reflexivity|].
  cbn. rewrite Hx. exact IH.
Qed.



(** The pledge lookup leaves the plot calls and the server alone. *)
Lemma get_actor_pledge_frame actor_id w :
  plot_calls (snd (get_actor_pledge actor_id w)) = plot_calls w /\
  remote (snd (get_actor_pledge actor_id w)) = remote w.
Proof.
  unfold get_actor_pledge.
  destruct (pledge_cache w !! actor_id); [split; reflexivity|].
  destruct (remote w (actor_url actor_id)); split; reflexivity.
Qed.

(** C6 (as the code has it).  For an actor whose pledge list is empty no
    target value is computed, but not by skipping: both target functions
    raise [IndexError] at [pledges[0]], and the plotting loop, which has no
    handler, stops with that error at this actor without issuing a plot call
    for it. *)
Theorem empty_pledges_raise_IndexError :
  forall data unfccc actor_id rest_codes w w',
    get_actor_pledge actor_id w = (Ok [], w') ->
    get_target_emissions_dict float_of_str data actor_id w
      = (Raise IndexError, w') /\
    get_target_emissions float_of_str data actor_id w
      = (Raise IndexError, w') /\
    country_container float_of_str ax_plot unfccc (actor_id :: rest_codes) w
      = (Raise IndexError, w') /\
    plot_calls w' = plot_calls w.
Proof.
  intros data unfccc actor_id rest_codes w w' Hget.
  repeat split.
  - rewrite get_target_emissions_dict_run, Hget. reflexivity.
  - rewrite get_target_emissions_run, Hget. reflexivity.
  - cbn [country_container]. unfold bind at 1.
    unfold country_container_body, bind at 1.
    rewrite get_target_emissions_dict_run, Hget. reflexivity.
  - pose proof (get_actor_pledge_frame actor_id w) as [Hp _].
    rewrite Hget in Hp. exact Hp.
Qed.

(** C7.  The target depends on the pledge list through its first element
    only: two runs whose pledge lookups return lists with the same head give
    the same result, for both target functions. *)
Theorem target_uses_first_pledge_only :
  forall data actor_id w1 w2 w1' w2' p rest1 rest2,
    get_actor_pledge actor_id w1 = (Ok (p :: rest1), w1') ->
    get_actor_pledge actor_id w2 = (Ok (p :: rest2), w2') ->
    fst (get_target_emissions_dict float_of_str data actor_id w1)
      = fst (get_target_emissions_dict float_of_str data actor_id w2) /\
    fst (get_target_emissions float_of_str data actor_id w1)
      = fst (get_target_emissions float_of_str data actor_id w2).
Proof.
  intros data actor_id w1 w2 w1' w2' p rest1 rest2 H1 H2.
  rewrite !get_target_emissions_dict_run, !get_target_emissions_run, H1, H2.
  split; reflexivity.
Qed.

Lemma Qeq_bool_inject_Z (a b : Z) :
  Qeq_bool (inject_Z a) (inject_Z b) = (a =? b).
Proof.
  destruct (a =? b) eqn:E.
  - apply Z.eqb_eq in E. subst. apply Qeq_bool_iff. reflexivity.
  - apply Z.eqb_neq in E.
    destruct (Qeq_bool (inject_Z a) (inject_Z b)) eqn:F; [|reflexivity].
    apply Qeq_bool_iff in F. unfold Qeq in F. cbn in F. lia.
Qed.

(** *** Rounding of integers *)

Lemma round_to_float_small z : Z.abs z <= 2 ^ 53 -> round_to_float z = z.
Proof.
  intros H. unfold round_to_float.
  destruct (Z.abs z <=? 2 ^ 53) eqn:E; [reflexivity|].
  apply Z.leb_gt in E. lia.
Qed.

(** Beyond 2^53 the rounded value stays at or beyond 2^53. *)
Lemma round_to_float_big z :
  2 ^ 53 < Z.abs z -> 2 ^ 53 <= Z.abs (round_to_float z).
Proof.
  intros H. unfold round_to_float.
  destruct (Z.abs z <=? 2 ^ 53) eqn:E; [apply Z.leb_le in E; lia|].
  set (a := Z.abs z) in *.
  assert (Ha : 0 < a) by lia.
  destruct (Z.log2_spec a Ha) as [Hlo _].
  assert (Hn : 53 <= Z.log2 a).
  { rewrite <- (Z.log2_pow2 53) by lia. apply Z.log2_le_mono. lia. }
  set (shift := Z.log2 a - 52) in *.
  assert (Hs : 1 <= shift) by (unfold shift; lia).
  assert (Hpow : 2 ^ Z.log2 a = 2 ^ 52 * 2 ^ shift).
  { replace (Z.log2 a) with (52 + shift) by (unfold shift; lia).
    apply Z.pow_add_r; lia. }
  assert (Hp : 0 < 2 ^ shift) by (apply Z.pow_pos_nonneg; lia).
  assert (Hp2 : 2 <= 2 ^ shift).
  { change 2 with (2 ^ 1) at 1. apply Z.pow_le_mono_r; lia. }
  assert (Hq : 2 ^ 52 <= a / 2 ^ shift).
  { apply Z.div_le_lower_bound; [exact Hp|]. lia. }
  set (q := a / 2 ^ shift) in *.
  set (q' := if a mod 2 ^ shift <? 2 ^ (shift - 1) then q
             else if 2 ^ (shift - 1) <? a mod 2 ^ shift then q + 1
             else if Z.even q then q else q + 1).
  assert (Hq' : q <= q').
  { unfold q'. destruct (_ <? _); [lia|]. destruct (_ <? _); [lia|].
    destruct (Z.even q); lia. }
  assert (Hprod : 2 ^ 53 <= q' * 2 ^ shift).
  { change (2 ^ 53) with (2 ^ 52 * 2). apply Z.mul_le_mono_nonneg; lia. }
  destruct z as [|pz|pz]; cbn [Z.sgn]; unfold a in *; cbn [Z.abs] in *; lia.
Qed.

(** An integer below 2^53 in magnitude is the float of itself only. *)
Lemma round_to_float_eq y z :
  Z.abs z < 2 ^ 53 -> (round_to_float y = z <-> y = z).
Proof.
  intros Hz. split.
  - intros H. destruct (Z_le_gt_dec (Z.abs y) (2 ^ 53)) as [Hs|Hb].
    + rewrite round_to_float_small in H by exact Hs. exact H.
    + pose proof (round_to_float_big y ltac:(lia)) as Hr. rewrite H in Hr. lia.
  - intros ->. apply round_to_float_small. lia.
Qed.

Lemma year_as_float_eqb y z :
  Z.abs z < 2 ^ 53 ->
  Qeq_bool (year_as_float y) (inject_Z z) = (y =? z).
Proof.
  intros Hz. unfold year_as_float. rewrite Qeq_bool_inject_Z.
  destruct (y =? z) eqn:E.
  - apply Z.eqb_eq in E. apply Z.eqb_eq. apply round_to_float_eq; assumption.
  - apply Z.eqb_neq in E. apply Z.eqb_neq. intros H. apply E.
    apply (round_to_float_eq y z Hz). exact H.
Qed.

Lemma float_of_int_small z :
  Z.abs z < 2 ^ 53 -> float_of_int z = Ok (inject_Z z).
Proof.
  intros Hz. unfold float_of_int.
  rewrite round_to_float_small by lia.
  destruct (Z.abs z <? 2 ^ 1024) eqn:E; [reflexivity|].
  apply Z.ltb_ge in E.
  assert (2 ^ 53 <= 2 ^ 1024) by (apply Z.pow_le_mono_r; lia). lia.
Qed.

(** Against a number that [float] keeps as it is, comparing the years with
    the value or with its [float] gives the same mask. *)
Lemma year_mask_float data v Y :
  exact_number v = true ->
  py_float float_of_str v = Ok Y ->
  year_mask data v = year_mask data (PFloat Y).
Proof.
  intros Hnum HY. unfold year_mask. apply map_ext. intros r.
  destruct v as [|b|z|q|s]; try discriminate; cbn in Hnum, HY.
  - inversion HY; subst. cbn [year_eq_scalar]. symmetry.
    destruct b; [apply (year_as_float_eqb (year r) 1) |
                 apply (year_as_float_eqb (year r) 0)]; reflexivity.
  - apply Z.ltb_lt in Hnum. rewrite (float_of_int_small z Hnum) in HY.
    inversion HY; subst. cbn [year_eq_scalar]. symmetry.
    apply year_as_float_eqb. exact Hnum.
  - inversion HY; subst. reflexivity.
Qed.

Lemma py_float_exact_number v :
  exact_number v = true -> exists Y, py_float float_of_str v = Ok Y.
Proof.
  destruct v as [|b|z|q|s]; try discriminate; intros H; cbn.
  - eexists; reflexivity.
  - apply Z.ltb_lt in H. rewrite (float_of_int_small z H). eexists; reflexivity.
  - eexists; reflexivity.
Qed.

(** C9 (as the code has it).  When the first pledge's [baseline_year] is a
    boolean, a float, or an integer of magnitude below 2^53, the series
    returned by [get_target_emissions] is the ['target_emissions'] entry of
    [get_target_emissions_dict], with the same exception when one is raised
    and the same effect on the world. *)
Theorem target_functions_agree_on_exact_baseline :
  forall data actor_id w,
    (forall p rest w' v,
        get_actor_pledge actor_id w = (Ok (p :: rest), w') ->
        p !! "baseline_year" = Some v ->
        exact_number v = true) ->
    get_target_emissions float_of_str data actor_id w
    = (result_map target_emissions
         (fst (get_target_emissions_dict float_of_str data actor_id w)),
       snd (get_target_emissions_dict float_of_str data actor_id w)).
Proof.
  intros data actor_id w Hnum.
  rewrite get_target_emissions_dict_run, get_target_emissions_run.
  destruct (get_actor_pledge actor_id w) as [[pledges|e] w'] eqn:Hget;
    [|reflexivity].
  cbn [fst snd]. f_equal.
  destruct pledges as [|p rest]; [reflexivity|].
  cbn [series_of_pledges dict_of_pledges].
  destruct (p !! "baseline_year") as [v|] eqn:Hv; [|reflexivity].
  specialize (Hnum p rest w' v eq_refl Hv).
  destruct (py_float_exact_number v Hnum) as [Y HY]. rewrite HY.
  destruct (p !! "target_value") as [tv|]; [|reflexivity].
  destruct (py_float float_of_str tv) as [P|e]; [|reflexivity].
  cbn [result_map target_emissions].
  rewrite (year_mask_float data v Y Hnum HY). reflexivity.
Qed.

(** *** The memoised pledge lookup *)

Lemma get_actor_pledge_hit actor_id w targets :
  pledge_cache w !! actor_id = Some targets ->
  get_actor_pledge actor_id w = (Ok targets, w).
Proof. intros H. unfold get_actor_pledge. rewrite H. reflexivity. Qed.

Lemma get_actor_pledge_miss actor_id w :
  pledge_cache w !! actor_id = None ->
  get_actor_pledge actor_id w =
  match remote w (actor_url actor_id) with
  | Ok targets =>
      (Ok targets,
       World (remote w) (<[actor_id := targets]> (pledge_cache w))
             (http_log w ++ [actor_url actor_id]) (plot_calls w))
  | Raise e =>
      (Raise e,
       World (remote w) (pledge_cache w)
             (http_log w ++ [actor_url actor_id]) (plot_calls w))
  end.
Proof. intros H. unfold get_actor_pledge. rewrite H. reflexivity. Qed.

Lemma get_actor_pledge_stored actor_id w targets w' :
  get_actor_pledge actor_id w = (Ok targets, w') ->
  pledge_cache w' !! actor_id = Some targets.
Proof.
  unfold get_actor_pledge.
  destruct (pledge_cache w !! actor_id) as [ps|] eqn:Hc.
  - intros H. inversion H; subst. exact Hc.
  - destruct (remote w (actor_url actor_id)); intros H; inversion H; subst.
    cbn. apply lookup_insert_eq.
Qed.

(** A computation that looks the pledges up and then works on the list
    alone: its effects are those of the lookup, and once the list is stored
    a later run returns the same result and leaves the world as it is. *)
Section Memoised.

Context {A : Type} (f : list pledge -> result A).

Lemma after_lookup_hit actor_id w :
  is_Some (pledge_cache w !! actor_id) ->
  snd (after_lookup f actor_id w) = w.
Proof.
  intros [ps Hps]. unfold after_lookup.
  rewrite (get_actor_pledge_hit _ _ _ Hps). reflexivity.
Qed.

Lemma after_lookup_miss actor_id w :
  pledge_cache w !! actor_id = None ->
  http_log (snd (after_lookup f actor_id w))
    = (http_log w ++ [actor_url actor_id])%list /\
  pledge_cache (snd (after_lookup f actor_id w))
    = match remote w (actor_url actor_id) with
      | Ok targets => <[actor_id := targets]> (pledge_cache w)
      | Raise _ => pledge_cache w
      end.
Proof.
  intros Hc. unfold after_lookup. rewrite (get_actor_pledge_miss _ _ Hc).
  destruct (remote w (actor_url actor_id)); split; reflexivity.
Qed.

Lemma after_lookup_ok_stored actor_id w :
  is_ok (fst (after_lookup f actor_id w)) = true ->
  is_Some (pledge_cache (snd (after_lookup f actor_id w)) !! actor_id).
Proof.
  unfold after_lookup.
  destruct (get_actor_pledge actor_id w) as [[ps|e] w'] eqn:Hget; cbn.
  - intros _. exists ps. exact (get_actor_pledge_stored _ _ _ _ Hget).
  - discriminate.
Qed.

Lemma after_lookup_again actor_id w w2 :
  is_Some (pledge_cache (snd (after_lookup f actor_id w)) !! actor_id) ->
  pledge_cache w2 !! actor_id
    = pledge_cache (snd (after_lookup f actor_id w)) !! actor_id ->
  after_lookup f actor_id w2 = (fst (after_lookup f actor_id w), w2).
Proof.
  unfold after_lookup at 1 2 4.
  destruct (get_actor_pledge actor_id w) as [[ps|e] w'] eqn:Hget; cbn [fst snd].
  - intros _ H2. rewrite (get_actor_pledge_stored _ _ _ _ Hget) in H2.
    unfold after_lookup. rewrite (get_actor_pledge_hit _ _ _ H2). reflexivity.
  - intros [ps Hps] H2.
    assert (Hw : pledge_cache w !! actor_id = None).
    { unfold get_actor_pledge in Hget.
      destruct (pledge_cache w !! actor_id); [discriminate | reflexivity]. }
    rewrite (get_actor_pledge_miss _ _ Hw) in Hget.
    destruct (remote w (actor_url actor_id)); inversion Hget; subst.
    cbn in Hps. congruence.
Qed.

End Memoised.

Lemma get_target_emissions_after_lookup data actor_id w :
  get_target_emissions float_of_str data actor_id w
  = after_lookup (series_of_pledges float_of_str data) actor_id w.
Proof. apply get_target_emissions_run. Qed.

Lemma get_target_emissions_dict_after_lookup data actor_id w :
  get_target_emissions_dict float_of_str data actor_id w
  = after_lookup (dict_of_pledges float_of_str data) actor_id w.
Proof. apply get_target_emissions_dict_run. Qed.

(** C8 (as the code has it).  The target computation reads the pledges
    through the memoised lookup.  With the actor's pledges in the cache it
    changes nothing in the world.  Without them it sends one request to the
    actor's URL and stores the answer, if there is one.  It never touches the
    plot calls.  Once the pledges are stored, which is the case after every
    run that returned a value, a later run with the same rows and actor
    returns the same result whatever the server would answer then, and sends
    nothing. *)
Theorem target_computation_effects :
  forall data actor_id w,
    let r := fst (get_target_emissions float_of_str data actor_id w) in
    let w' := snd (get_target_emissions float_of_str data actor_id w) in
    (is_Some (pledge_cache w !! actor_id) -> w' = w) /\
    (pledge_cache w !! actor_id = None ->
       http_log w' = (http_log w ++ [actor_url actor_id])%list /\
       pledge_cache w'
         = match remote w (actor_url actor_id) with
           | Ok targets => <[actor_id := targets]> (pledge_cache w)
           | Raise _ => pledge_cache w
           end) /\
    plot_calls w' = plot_calls w /\
    (is_ok r = true -> is_Some (pledge_cache w' !! actor_id)) /\
    (is_Some (pledge_cache w' !! actor_id) ->
       forall w2,
         pledge_cache w2 !! actor_id = pledge_cache w' !! actor_id ->
         get_target_emissions float_of_str data actor_id w2 = (r, w2)).
Proof.
  intros data actor_id w. cbn zeta.
  rewrite !get_target_emissions_after_lookup.
  split; [apply after_lookup_hit|].
  split; [apply after_lookup_miss|].
  split.
  - unfold after_lookup.
    pose proof (get_actor_pledge_frame actor_id w) as [Hp _].
    destruct (get_actor_pledge actor_id w) as [[ps|e] w']; exact Hp.
  - split; [apply after_lookup_ok_stored|].
    intros Hs w2 H2. rewrite get_target_emissions_after_lookup.
    apply after_lookup_again; assumption.
Qed.

(** C5 (as the code has it).  When no row of the actor has the baseline
    year, the target computation raises nothing and returns an empty series
    with the baseline year.  The loop body does not test for that: when the
    actor has at least one row and the emissions line is accepted, it issues
    the target-line call with the empty series as both y values, and what
    the iteration returns or raises is what the plotting surface does on
    that call. *)
Theorem missing_baseline_year_empty_target :
  forall unfccc actor_id w w' p rest by_raw tv Y P,
    let data := loc_actor unfccc actor_id in
    get_actor_pledge actor_id w = (Ok (p :: rest), w') ->
    p !! "baseline_year" = Some by_raw ->
    py_float float_of_str by_raw = Ok Y ->
    p !! "target_value" = Some tv ->
    py_float float_of_str tv = Ok P ->
    Forall (fun r => ~ year_as_float (year r) == Y) data ->
    get_target_emissions_dict float_of_str data actor_id w
      = (Ok (TargetDict [] Y), w') /\
    (forall last_year,
        getitem_last (values (col_year data)) = Ok last_year ->
        let emissions_line :=
          PlotEmissions (col_year data)
            (series_mul (col_total_emissions data) conversion) actor_id in
        let target_line :=
          PlotTargetLevel (Y, last_year) ([], []) (actor_id ++ " target level") in
        ax_plot emissions_line = Ok tt ->
        country_container_body float_of_str ax_plot unfccc actor_id w
        = (ax_plot target_line,
           World (remote w') (pledge_cache w') (http_log w')
                 (plot_calls w' ++ [emissions_line; target_line]))).
Proof.
  intros unfccc actor_id w w' p rest by_raw tv Y P data
         Hget Hby HY Htv HP Hnone.
  assert (Hdict : get_target_emissions_dict float_of_str data actor_id w
                  = (Ok (TargetDict [] Y), w')).
  { rewrite get_target_emissions_dict_run, Hget.
    unfold dict_of_pledges. rewrite Hby, HY, Htv, HP.
    rewrite loc_total_emissions_mask, filter_none; [reflexivity|].
    eapply Forall_impl; [exact Hnone|]. intros r Hr. cbn.
    destruct (Qeq_bool (year_as_float (year r)) Y) eqn:E; [|reflexivity].
    apply Qeq_bool_iff in E. contradiction. }
  split; [exact Hdict|].
  intros last_year Hlast emissions_line target_line Hacc.
  unfold country_container_body. fold data.
  unfold bind at 1. rewrite Hdict. cbn [target_emissions baseline_year].
  unfold bind at 1. unfold plot at 1. fold emissions_line. rewrite Hacc.
  unfold bind at 1, lift. rewrite Hlast.
  unfold plot. cbn [remote pledge_cache http_log plot_calls series_mul map].
  fold target_line. rewrite <- app_assoc. reflexivity.
Qed.

End TargetFacts.


(** C6, the claim as stated fails: with an empty pledge list an error is
    raised, by the target function and by the plotting loop. *)
Lemma empty_pledges_not_skipped :
  get_actor_pledge "CA" (fresh_world []) = (Ok [], snd (get_actor_pledge "CA" (fresh_world []))) /\
  fst (get_target_emissions_dict float_of_decimal national_2005_2010 "CA"
         (fresh_world [])) = Raise IndexError /\
  fst (country_container float_of_decimal ax_plot_accept national_2005_2010
         ["CA"] (fresh_world [])) = Raise IndexError.
Proof. repeat split; vm_compute; reflexivity. Qed.

Lemma empty_pledges_raise_IndexError_witness :
  get_target_emissions_dict float_of_decimal national_2005_2010 "CA"
    (fresh_world [])
  = (Raise IndexError, snd (get_actor_pledge "CA" (fresh_world []))).
Proof.
  exact (proj1 (empty_pledges_raise_IndexError float_of_decimal ax_plot_accept
                  national_2005_2010 national_2005_2010 "CA" []
                  (fresh_world []) _ eq_refl)).
Defined.

Lemma target_uses_first_pledge_only_witness :
  fst (get_target_emissions_dict float_of_decimal national_2005_2010 "CA"
         (fresh_world [pledge_2005_30]))
  = fst (get_target_emissions_dict float_of_decimal national_2005_2010 "CA"
           (fresh_world [pledge_2005_30; pledge_null_baseline])).
Proof.
  exact (proj1 (target_uses_first_pledge_only float_of_decimal
                  national_2005_2010 "CA"
                  (fresh_world [pledge_2005_30])
                  (fresh_world [pledge_2005_30; pledge_null_baseline])
                  _ _ pledge_2005_30 [] [pledge_null_baseline]
                  eq_refl eq_refl)).
Defined.

(** C9, the claim as stated fails: with [baseline_year] null the raw
    comparison selects no row and returns an empty series while the other
    function raises at [float(None)]; with the string "2005" the raw
    comparison again selects no row while the other function finds the
    baseline row; with the integer 2^53 + 1 the raw comparison selects the
    one row of that year while its float, 2^53, also matches the row of
    year 2^53. *)
Lemma target_functions_disagree :
  fst (get_target_emissions float_of_decimal national_2005_2010 "CA"
         (fresh_world [pledge_null_baseline])) = Ok [] /\
  fst (get_target_emissions_dict float_of_decimal national_2005_2010 "CA"
         (fresh_world [pledge_null_baseline])) = Raise TypeError /\
  fst (get_target_emissions float_of_decimal national_2005_2010 "CA"
         (fresh_world [pledge_string_baseline])) = Ok [] /\
  result_map (fun d => length (target_emissions d))
    (fst (get_target_emissions_dict float_of_decimal national_2005_2010 "CA"
            (fresh_world [pledge_string_baseline]))) = Ok 1%nat /\
  result_map (@length (Z * Q))
    (fst (get_target_emissions float_of_decimal national_big_years "CA"
            (fresh_world [pledge_big_baseline]))) = Ok 1%nat /\
  result_map (fun d => length (target_emissions d))
    (fst (get_target_emissions_dict float_of_decimal national_big_years "CA"
            (fresh_world [pledge_big_baseline]))) = Ok 2%nat.
Proof. repeat split; vm_compute; reflexivity. Qed.

Lemma target_functions_agree_on_exact_baseline_witness :
  get_target_emissions float_of_decimal national_2005_2010 "CA"
    (fresh_world [pledge_2005_30])
  = (result_map target_emissions
       (fst (get_target_emissions_dict float_of_decimal national_2005_2010
               "CA" (fresh_world [pledge_2005_30]))),
     snd (get_target_emissions_dict float_of_decimal national_2005_2010
            "CA" (fresh_world [pledge_2005_30]))).
Proof.
  apply (target_functions_agree_on_exact_baseline float_of_decimal).
  intros p rest w' v Hget Hv.
  vm_compute in Hget. inversion Hget; subst.
  vm_compute in Hv. inversion Hv. reflexivity.
Defined.

(** C8, the claim as stated fails: in a fresh process the target computation
    sends a request and writes the memo cache. *)
Lemma target_computation_does_io :
  http_log (fresh_world [pledge_2005_30]) = [] /\
  http_log (snd (get_target_emissions float_of_decimal national_2005_2010 "CA"
                   (fresh_world [pledge_2005_30])))
    = ["https://openclimate.network/api/v1/actor/CA"] /\
  pledge_cache (fresh_world [pledge_2005_30]) !! "CA" = None /\
  pledge_cache (snd (get_target_emissions float_of_decimal national_2005_2010
                       "CA" (fresh_world [pledge_2005_30]))) !! "CA"
    = Some [pledge_2005_30].
Proof. repeat split; vm_compute; reflexivity. Qed.

(** After a first run against a server listing the 2005 pledge, a second run
    returns the same series although the server now lists nothing. *)
Lemma target_computation_effects_witness :
  let w' := snd (get_target_emissions float_of_decimal national_2005_2010 "CA"
                   (fresh_world [pledge_2005_30])) in
  let w2 := World (fun _ => Ok []) (pledge_cache w') (http_log w') [] in
  get_target_emissions float_of_decimal national_2005_2010 "CA" w2
  = (fst (get_target_emissions float_of_decimal national_2005_2010 "CA"
            (fresh_world [pledge_2005_30])), w2).
Proof.
  intros w' w2.
  destruct (target_computation_effects float_of_decimal national_2005_2010
              "CA" (fresh_world [pledge_2005_30]))
    as (_ & _ & _ & Hstored & Hagain).
  apply Hagain.
  - apply Hstored. reflexivity.
  - reflexivity.
Defined.

(** C5, the claim as stated fails.  For a country without rows the series
    lacks the baseline year and the loop raises [IndexError] at
    [list(data['year'])[-1]].  For a country with rows but none for the
    baseline year the target line is not skipped: the call is issued with
    empty y values. *)
Lemma missing_baseline_year_not_skipped :
  fst (get_target_emissions_dict float_of_decimal (loc_actor [] "CA") "CA"
         (fresh_world [pledge_2005_30]))
    = Ok (TargetDict [] 2005) /\
  fst (country_container float_of_decimal ax_plot_accept [] ["CA"]
         (fresh_world [pledge_2005_30]))
    = Raise IndexError /\
  last (plot_calls
          (snd (country_container float_of_decimal ax_plot_accept
                  national_2010_2011 ["CA"] (fresh_world [pledge_2005_30]))))
    = Some (PlotTargetLevel (2005%Q, 2011) ([], []) "CA target level").
Proof. repeat split; vm_compute; reflexivity. Qed.

Lemma missing_baseline_year_empty_target_witness :
  get_target_emissions_dict float_of_decimal
    (loc_actor national_2010_2011 "CA") "CA" (fresh_world [pledge_2005_30])
  = (Ok (TargetDict [] 2005),
     snd (get_actor_pledge "CA" (fresh_world [pledge_2005_30]))).
Proof.
  refine (proj1 (missing_baseline_year_empty_target float_of_decimal
                   ax_plot_accept national_2010_2011 "CA"
                   (fresh_world [pledge_2005_30]) _ pledge_2005_30 []
                   (PInt 2005) (PInt 30) 2005%Q 30%Q
                   eq_refl eq_refl eq_refl eq_refl eq_refl _)).
  repeat constructor; cbn; intros E; vm_compute in E; discriminate.
Defined.

(** ** Aggregation by year *)

Section Aggregation.

Implicit Types (df seen : DataFrame) (groups : list (Z * Q)) (y k : Z).

Lemma year_total_nil y : year_total [] y = 0%Q.
Proof. reflexivity. Qed.

Lemma year_total_cons r df y :
  year_total (r :: df) y
  = if decide (year r = y) then (total_emissions r + year_total df y)%Q
    else year_total df y.
Proof.
  unfold year_total, DataFrame. rewrite filter_cons.
  destruct (decide (year r = y)); reflexivity.
Qed.

Lemma year_total_app df1 df2 y :
  year_total (df1 ++ df2)%list y == year_total df1 y + year_total df2 y.
Proof.
  induction df1 as [|r df1 IH].
  - rewrite year_total_nil. cbn [app]. ring.
  - change ((r :: df1) ++ df2)%list with (r :: (df1 ++ df2))%list.
    rewrite !year_total_cons.
    destruct (decide (year r = y)); [rewrite IH; ring | exact IH].
Qed.

Lemma year_total_absent df y :
  ~ In y (map year df) -> year_total df y = 0%Q.
Proof.
  induction df as [|r df IH]; [reflexivity|].
  intros Hn. rewrite year_total_cons.
  destruct (decide (year r = y)) as [E|_].
  - exfalso. apply Hn. left. exact E.
  - apply IH. intros Hin. apply Hn. right. exact Hin.
Qed.


(** The keys after adding a row: its year and the keys there were. *)
Lemma add_to_group_keys y v groups k :
  In k (map fst (add_to_group y v groups)) <-> k = y \/ In k (map fst groups).
Proof.
  induction groups as [|[y' s] rest IH]; cbn [add_to_group].
  - cbn. intuition.
  - destruct (y <? y') eqn:Hlt; [cbn; intuition|].
    destruct (y =? y') eqn:Heq.
    + apply Z.eqb_eq in Heq. subst y'. cbn. intuition.
    + cbn [map fst In]. rewrite IH. intuition.
Qed.

Lemma add_to_group_sorted y v groups :
  StronglySorted Z.lt (map fst groups) ->
  StronglySorted Z.lt (map fst (add_to_group y v groups)).
Proof.
  induction groups as [|[y' s] rest IH]; cbn [add_to_group]; intros Hs.
  - repeat constructor.
  - cbn [map fst] in Hs. inversion Hs as [|? ? Hrest Hall]; subst.
    destruct (y <? y') eqn:Hlt.
    + apply Z.ltb_lt in Hlt. cbn [map fst]. constructor; [exact Hs|].
      constructor; [exact Hlt|].
      eapply Forall_impl; [exact Hall|]. intros k Hk. cbn in Hk. lia.
    + apply Z.ltb_ge in Hlt. destruct (y =? y') eqn:Heq.
      * exact Hs.
      * apply Z.eqb_neq in Heq. cbn [map fst].
        constructor; [apply IH; exact Hrest|].
        apply Forall_forall. intros k Hk.
        apply list_elem_of_In, add_to_group_keys in Hk as [->|Hk]; [lia|].
        rewrite Forall_forall in Hall. apply Hall, list_elem_of_In, Hk.
Qed.

(** Where the entries come from after adding a row of year [y]. *)
Lemma add_to_group_entries y v groups k s :
  StronglySorted Z.lt (map fst groups) ->
  In (k, s) (add_to_group y v groups) ->
  (k <> y /\ In (k, s) groups) \/
  (k = y /\ ((exists s0, In (y, s0) groups /\ s = (s0 + v)%Q) \/
             (~ In y (map fst groups) /\ s = v))).
Proof.
  induction groups as [|[y' s'] rest IH]; cbn [add_to_group]; intros Hs Hin.
  - destruct Hin as [E|[]]. inversion E; subst. right. split; [reflexivity|].
    right. split; [intros []|reflexivity].
  - cbn [map fst] in Hs. inversion Hs as [|? ? Hrest Hall]; subst.
    rewrite Forall_forall in Hall.
    assert (Hkeys : forall k0 s0, In (k0, s0) rest -> y' < k0).
    { intros k0 s0 H0. apply Hall, list_elem_of_In.
      change k0 with (fst (k0, s0)). apply in_map. exact H0. }
    destruct (y <? y') eqn:Hlt.
    + apply Z.ltb_lt in Hlt. destruct Hin as [E|Hin].
      * inversion E; subst. right. split; [reflexivity|]. right.
        split; [|reflexivity]. cbn [map fst In]. intros [E'|Hin']; [lia|].
        apply list_elem_of_In, Hall in Hin'. lia.
      * left. split; [|exact Hin]. destruct Hin as [E|Hin].
        -- inversion E; subst. lia.
        -- apply Hkeys in Hin. lia.
    + apply Z.ltb_ge in Hlt. destruct (y =? y') eqn:Heq.
      * apply Z.eqb_eq in Heq. subst y'. destruct Hin as [E|Hin].
        -- inversion E; subst. right. split; [reflexivity|]. left.
           exists s'. split; [left; reflexivity|reflexivity].
        -- left. split; [apply Hkeys in Hin; lia | right; exact Hin].
      * apply Z.eqb_neq in Heq. destruct Hin as [E|Hin].
        -- inversion E; subst. left. split; [lia | left; reflexivity].
        -- destruct (IH Hrest Hin) as [[Hne Hin']|[-> [[s0 [Hin' ->]]|[Hnot ->]]]].
           ++ left. split; [exact Hne | right; exact Hin'].
           ++ right. split; [reflexivity|]. left. exists s0.
              split; [right; exact Hin' | reflexivity].
           ++ right. split; [reflexivity|]. right. split; [|reflexivity].
              cbn [map fst In]. intros [E'|Hin']; [lia | contradiction].
Qed.

Lemma totals_of_nil : totals_of [] [].
Proof.
  split; [constructor|]. split; [reflexivity|]. intros y s [].
Qed.

(** Adding one more row keeps the running totals right. *)
Lemma totals_of_step seen groups r :
  totals_of seen groups ->
  totals_of (seen ++ [r])%list
            (add_to_group (year r) (total_emissions r) groups).
Proof.
  intros (Hs & Hk & Hv). split; [apply add_to_group_sorted, Hs|]. split.
  - intros y. rewrite add_to_group_keys, Hk, map_app, in_app_iff. cbn.
    intuition.
  - intros y s Hin. rewrite year_total_app, year_total_cons, year_total_nil.
    destruct (add_to_group_entries _ _ _ _ _ Hs Hin)
      as [[Hne Hin']|[-> [[s0 [Hin' ->]]|[Hnot ->]]]].
    + rewrite decide_False by congruence. rewrite (Hv _ _ Hin'). ring.
    + rewrite decide_True by reflexivity. rewrite (Hv _ _ Hin'). ring.
    + rewrite decide_True by reflexivity.
      rewrite year_total_absent; [ring|]. rewrite <- Hk. exact Hnot.
Qed.

Lemma totals_of_fold rows seen groups :
  totals_of seen groups ->
  totals_of (seen ++ rows)%list
    (fold_left (fun g r => add_to_group (year r) (total_emissions r) g)
               rows groups).
Proof.
  revert seen groups. induction rows as [|r rows IH]; intros seen groups H.
  - rewrite app_nil_r. exact H.
  - cbn [fold_left].
    replace (seen ++ r :: rows)%list with ((seen ++ [r]) ++ rows)%list
      by (rewrite <- app_assoc; reflexivity).
    apply IH, totals_of_step, H.
Qed.

Lemma df_sum_totals df : totals_of df (df_sum df).
Proof. exact (totals_of_fold df [] [] totals_of_nil). Qed.




End Aggregation.

(** ** Aggregation over any addition *)

Section AggregationAnyAdd.

Variable add : Q -> Q -> Q.

Implicit Types (df seen : DataFrame) (groups : list (Z * Q)) (y k : Z).














End AggregationAnyAdd.







(** ** National total against the sum of subnationals *)

Section Reconciliation.

Implicit Types (data : DataFrame) (sums : list (Z * Q)) (a b d : list Q).

Lemma np_subtract_same_length a b :
  length a = length b -> np_subtract a b = Ok (zip_with Qminus a b).
Proof.
  intros H. unfold np_subtract. rewrite H, Nat.eqb_refl. reflexivity.
Qed.

(** Subtraction goes through exactly for equal lengths or a length of one. *)
Lemma np_subtract_is_ok a b :
  is_ok (np_subtract a b) = true <->
  length a = length b \/ length b = 1%nat \/ length a = 1%nat.
Proof.
  unfold np_subtract.
  destruct (length a =? length b)%nat eqn:E.
  - apply Nat.eqb_eq in E. cbn. intuition.
  - apply Nat.eqb_neq in E.
    destruct a as [|x [|x' a]], b as [|y [|y' b]]; cbn in *;
      split; intros H; try reflexivity; try discriminate; try lia;
      auto.
Qed.

Lemma length_country_total data :
  length (values (country_total data)) = length data.
Proof.
  unfold values, country_total, series_mul, col_total_emissions.
  rewrite !length_map. reflexivity.
Qed.

Lemma length_subnational_total sums :
  length (subnational_total sums) = length sums.
Proof. unfold subnational_total. apply length_map. Qed.

Lemma difference_same_length data sums :
  length data = length sums ->
  difference data sums
  = Ok (zip_with Qminus (values (country_total data)) (subnational_total sums)).
Proof.
  intros H. apply np_subtract_same_length.
  rewrite length_country_total, length_subnational_total. exact H.
Qed.

Lemma zip_sub_lookup data sums (i : nat) r g :
  data !! i = Some r -> sums !! i = Some g ->
  zip_with Qminus (values (country_total data)) (subnational_total sums) !! i
  = Some (total_emissions r * conversion - snd g * conversion)%Q.
Proof.
  revert sums i. induction data as [|r0 data IH]; intros [|g0 sums] [|i];
    try discriminate; cbn.
  - intros H1 H2. inversion H1; inversion H2; subst. reflexivity.
  - intros H1 H2. apply (IH sums i H1 H2).
Qed.

Lemma zip_sub_length data sums :
  length data = length sums ->
  length (zip_with Qminus (values (country_total data)) (subnational_total sums))
  = length data.
Proof.
  intros H. rewrite length_zip_with, length_country_total,
              length_subnational_total. lia.
Qed.

(** C10 (as the code has it).  The difference is taken over the two arrays
    by position.  The subtraction is defined exactly when the national rows
    and the aggregated rows are equally many, or one of the two has a single
    entry, which is then paired with every entry of the other.  With equally
    many entries, entry i is national[i] minus subnational[i], whatever the
    years of the two rows. *)
Theorem difference_is_positional :
  forall data sums,
    (is_ok (difference data sums) = true <->
       length data = length sums \/
       length sums = 1%nat \/ length data = 1%nat) /\
    (length data = length sums ->
       exists d,
         difference data sums = Ok d /\
         length d = length data /\
         forall (i : nat) r g,
           data !! i = Some r -> sums !! i = Some g ->
           d !! i = Some (total_emissions r * conversion
                          - snd g * conversion)%Q).
Proof.
  intros data sums. split.
  - unfold difference. rewrite np_subtract_is_ok,
      length_country_total, length_subnational_total. reflexivity.
  - intros H. eexists. split; [apply difference_same_length, H|].
    split; [apply zip_sub_length, H|].
    intros i r g. apply zip_sub_lookup.
Qed.

Lemma difference_series_years data sums :
  map year data = map fst sums ->
  map fst (difference_series data
             (zip_with Qminus (values (country_total data))
                              (subnational_total sums)))
  = map year data.
Proof.
  revert sums. induction data as [|r data IH]; intros [|g sums] H;
    try discriminate; [reflexivity|].
  cbn in H. inversion H as [[Hy Ht]].
  cbn. f_equal. apply (IH sums Ht).
Qed.

Lemma difference_series_at data sums y va vb :
  map year data = map fst sums ->
  series_at (national_series data) y = Some va ->
  series_at (aggregated_series sums) y = Some vb ->
  series_at (difference_series data
               (zip_with Qminus (values (country_total data))
                                (subnational_total sums))) y
  = Some (va - vb)%Q.
Proof.
  revert sums. induction data as [|r data IH]; intros [|[yg sg] sums] H;
    try discriminate.
  cbn in H. inversion H as [[Hy Ht]]. cbn.
  destruct (year r =? y) eqn:E.
  - intros Ha Hb. inversion Ha; inversion Hb; subst. reflexivity.
  - apply (IH sums Ht).
Qed.

(** C2 (as the code has it).  When the national rows and the aggregated rows
    list the same years in the same order, the difference has an entry
    exactly for those years, and the entry of year [y] is A[y] - B[y].  The
    code pairs the two arrays by position and draws the i-th value at the
    i-th national year; it does not match or drop years. *)
Theorem difference_by_year_when_years_align :
  forall data sums,
    map year data = map fst sums ->
    exists d,
      difference data sums = Ok d /\
      (forall y,
          In y (map fst (difference_series data d)) <->
          In y (map year data) /\ In y (map fst sums)) /\
      (forall y va vb,
          series_at (national_series data) y = Some va ->
          series_at (aggregated_series sums) y = Some vb ->
          series_at (difference_series data d) y = Some (va - vb)%Q).
Proof.
  intros data sums H.
  assert (Hlen : length data = length sums).
  { rewrite <- (length_map year data), H. apply length_map. }
  eexists. split; [apply difference_same_length, Hlen|]. split.
  - intros y. rewrite (difference_series_years data sums H), <- H. tauto.
  - intros y va vb. apply difference_series_at, H.
Qed.

End Reconciliation.

(** C10, the claim as stated fails: two national rows against a single
    aggregated row are subtracted without error. *)
Lemma difference_defined_on_unequal_lengths :
  length national_2010_2011 = 2%nat /\
  length (df_sum subnational_2010) = 1%nat /\
  is_ok (difference national_2010_2011 (df_sum subnational_2010)) = true /\
  result_map (@length Q)
    (difference national_2010_2011 (df_sum subnational_2010)) = Ok 2%nat.
Proof. repeat split; vm_compute; reflexivity. Qed.

Lemma difference_is_positional_witness :
  exists d,
    difference national_2010_2011 (df_sum subnational_2011_2012) = Ok d /\
    length d = 2%nat.
Proof.
  destruct (proj2 (difference_is_positional national_2010_2011
                     (df_sum subnational_2011_2012)) eq_refl)
    as (d & Hd & Hlen & _).
  exists d. split; [exact Hd | exact Hlen].
Defined.

(** C2, the claim as stated fails: with national years 2010, 2011 and
    aggregated years 2011, 2012 the difference has an entry for 2010, a year
    the aggregated series lacks, and its entry for 2011 is not
    A[2011] - B[2011]. *)
Lemma difference_not_matched_by_year :
  exists ds,
    subnational_container national_2010_2011 subnational_2011_2012 [] "CA"
      = Ok ds /\
    map fst ds = [2010; 2011] /\
    series_at (aggregated_series (df_sum subnational_2011_2012)) 2010 = None /\
    exists v va vb,
      series_at ds 2011 = Some v /\
      series_at (national_series national_2010_2011) 2011 = Some va /\
      series_at (aggregated_series (df_sum subnational_2011_2012)) 2011
        = Some vb /\
      ~ v == va - vb.
Proof.
  eexists. split; [vm_compute; reflexivity|].
  split; [reflexivity|]. split; [reflexivity|].
  eexists _, _, _. split; [vm_compute; reflexivity|].
  split; [vm_compute; reflexivity|]. split; [vm_compute; reflexivity|].
  intros E. vm_compute in E. discriminate.
Qed.

Lemma difference_by_year_when_years_align_witness :
  exists d,
    difference national_2010_2011 (df_sum subnational_2010_2011) = Ok d /\
    series_at (difference_series national_2010_2011 d) 2010
      = Some (100 * conversion - 70 * conversion)%Q.
Proof.
  destruct (difference_by_year_when_years_align national_2010_2011
              (df_sum subnational_2010_2011) eq_refl)
    as (d & Hd & _ & Hat).
  exists d. split; [exact Hd|].
  apply Hat; reflexivity.
Defined.

(** * More of the program *)

(** ** The memoised pledge lookup *)

Section Lookup.

Implicit Types (w : world) (actor_id other : string).

(** X1.  After a lookup that returned a list, a later lookup of the same
    actor in any world whose cache still holds that entry returns the same
    list and changes nothing, whatever the server would answer by then. *)
Theorem get_actor_pledge_repeat :
  forall actor_id w targets w' w2,
    get_actor_pledge actor_id w = (Ok targets, w') ->
    pledge_cache w2 !! actor_id = pledge_cache w' !! actor_id ->
    get_actor_pledge actor_id w2 = (Ok targets, w2).
Proof.
  intros actor_id w targets w' w2 Hget H2.
  apply get_actor_pledge_hit.
  rewrite H2. exact (get_actor_pledge_stored _ _ _ _ Hget).
Qed.

(** X2.  A lookup raises only when nothing was stored for the actor and the
    request itself raised; the exception is the request's, one request was
    sent, and nothing is stored, so the next lookup asks the server again. *)
Theorem get_actor_pledge_failure :
  forall actor_id w e w',
    get_actor_pledge actor_id w = (Raise e, w') ->
    pledge_cache w !! actor_id = None /\
    remote w (actor_url actor_id) = Raise e /\
    pledge_cache w' = pledge_cache w /\
    http_log w' = (http_log w ++ [actor_url actor_id])%list /\
    (forall w2,
        pledge_cache w2 = pledge_cache w' ->
        fst (get_actor_pledge actor_id w2) = remote w2 (actor_url actor_id)).
Proof.
  intros actor_id w e w' Hget.
  assert (Hc : pledge_cache w !! actor_id = None).
  { unfold get_actor_pledge in Hget.
    destruct (pledge_cache w !! actor_id); [discriminate | reflexivity]. }
  rewrite (get_actor_pledge_miss _ _ Hc) in Hget.
  destruct (remote w (actor_url actor_id)) as [ps|e'] eqn:Hr;
    inversion Hget; subst.
  repeat split; try reflexivity; try assumption.
  intros w2 H2. cbn in H2.
  rewrite (get_actor_pledge_miss actor_id w2) by (rewrite H2; exact Hc).
  destruct (remote w2 (actor_url actor_id)); reflexivity.
Qed.

Lemma lookup_keeps_cache actor_id w other :
  other <> actor_id \/ is_Some (pledge_cache w !! other) ->
  pledge_cache (snd (get_actor_pledge actor_id w)) !! other
  = pledge_cache w !! other.
Proof.
  intros H.
  destruct (pledge_cache w !! actor_id) as [ps|] eqn:Hc.
  - rewrite (get_actor_pledge_hit _ _ _ Hc). reflexivity.
  - rewrite (get_actor_pledge_miss _ _ Hc).
    destruct (remote w (actor_url actor_id)); [|reflexivity].
    cbn. apply lookup_insert_ne.
    destruct H as [Hne|[ps Hps]]; [congruence|].
    intros ->. congruence.
Qed.

(** X3.  A lookup never removes or replaces a stored list, and it leaves
    the entries of every other actor as they were. *)
Theorem get_actor_pledge_keeps_cache :
  forall actor_id w other,
    other <> actor_id \/ is_Some (pledge_cache w !! other) ->
    pledge_cache (snd (get_actor_pledge actor_id w)) !! other
    = pledge_cache w !! other.
Proof. intros actor_id w other. apply lookup_keeps_cache. Qed.

(** X4.  Memoisation is transparent while the server keeps its answers: a
    lookup returns what [pledges_for] says, and after it [pledges_for] is
    the same for every actor. *)
Theorem get_actor_pledge_transparent :
  forall actor_id w,
    fst (get_actor_pledge actor_id w) = pledges_for w actor_id /\
    forall other,
      pledges_for (snd (get_actor_pledge actor_id w)) other
      = pledges_for w other.
Proof.
  intros actor_id w. unfold pledges_for.
  destruct (pledge_cache w !! actor_id) as [ps|] eqn:Hc.
  - rewrite (get_actor_pledge_hit _ _ _ Hc). cbn. split; reflexivity.
  - rewrite (get_actor_pledge_miss _ _ Hc).
    destruct (remote w (actor_url actor_id)) as [ps|e] eqn:Hr; cbn;
      (split; [reflexivity|]); intros other; [|reflexivity].
    destruct (decide (other = actor_id)) as [->|Hne].
    + rewrite lookup_insert_eq, Hc, Hr. reflexivity.
    + rewrite lookup_insert_ne by congruence. reflexivity.
Qed.

Lemma string_app_inj_l (p a b : string) : (p ++ a = p ++ b)%string -> a = b.
Proof.
  induction p as [|c p IH]; cbn; intros H; [exact H|].
  inversion H. apply IH. assumption.
Qed.

(** X5.  Different actors are asked for at different URLs. *)
Theorem actor_url_injective :
  forall actor_id other,
    actor_url actor_id = actor_url other -> actor_id = other.
Proof.
  intros actor_id other H. unfold actor_url in H.
  apply string_app_inj_l in H. apply string_app_inj_l in H. exact H.
Qed.

End Lookup.

Lemma get_actor_pledge_repeat_witness :
  get_actor_pledge "CA"
    (World (fun _ => Raise (RequestException "offline"))
           (pledge_cache (snd (get_actor_pledge "CA" (fresh_world [pledge_2005_30]))))
           [] [])
  = (Ok [pledge_2005_30],
     World (fun _ => Raise (RequestException "offline"))
           (pledge_cache (snd (get_actor_pledge "CA" (fresh_world [pledge_2005_30]))))
           [] []).
Proof.
  apply (get_actor_pledge_repeat "CA" (fresh_world [pledge_2005_30])
           [pledge_2005_30] _ _ eq_refl).
  reflexivity.
Defined.

Lemma get_actor_pledge_failure_witness :
  pledge_cache
    (snd (get_actor_pledge "CA"
            (World (fun _ => Raise (RequestException "offline")) ∅ [] [])))
  = ∅.
Proof.
  exact (proj1 (proj2 (proj2
           (get_actor_pledge_failure "CA"
              (World (fun _ => Raise (RequestException "offline")) ∅ [] [])
              (RequestException "offline") _ eq_refl)))).
Defined.

Lemma get_actor_pledge_keeps_cache_witness :
  pledge_cache (snd (get_actor_pledge "CA" (fresh_world [pledge_2005_30]))) !! "US"
  = pledge_cache (fresh_world [pledge_2005_30]) !! "US".
Proof.
  apply get_actor_pledge_keeps_cache. left. discriminate.
Defined.

Lemma actor_url_injective_witness : "CA" = "CA".
Proof. exact (actor_url_injective "CA" "CA" eq_refl). Defined.

(** ** The target functions: outcomes and values *)

Section TargetMore.

Variable float_of_str : string -> option Q.

Implicit Types (data : DataFrame) (w : world) (p : pledge).

(** X6.  Whether a target function returns or raises, which exception it
    raises and what it does to the world never depend on the emissions
    rows. *)
Theorem target_outcome_independent_of_rows :
  forall data1 data2 actor_id w,
    (snd (get_target_emissions_dict float_of_str data1 actor_id w)
     = snd (get_target_emissions_dict float_of_str data2 actor_id w) /\
     result_map (fun _ => tt)
       (fst (get_target_emissions_dict float_of_str data1 actor_id w))
     = result_map (fun _ => tt)
         (fst (get_target_emissions_dict float_of_str data2 actor_id w))) /\
    (snd (get_target_emissions float_of_str data1 actor_id w)
     = snd (get_target_emissions float_of_str data2 actor_id w) /\
     result_map (fun _ => tt)
       (fst (get_target_emissions float_of_str data1 actor_id w))
     = result_map (fun _ => tt)
         (fst (get_target_emissions float_of_str data2 actor_id w))).
Proof.
  intros data1 data2 actor_id w.
  rewrite !get_target_emissions_dict_run, !get_target_emissions_run.
  destruct (get_actor_pledge actor_id w) as [[pledges|e] w'];
    [|repeat split; reflexivity].
  cbn [fst snd]. unfold dict_of_pledges, series_of_pledges.
  destruct pledges as [|p rest]; [repeat split; reflexivity|].
  destruct (p !! "baseline_year") as [by_raw|]; [|repeat split; reflexivity].
  destruct (p !! "target_value") as [tv|];
    destruct (py_float float_of_str by_raw);
    try destruct (py_float float_of_str tv);
    repeat split; reflexivity.
Qed.

(** X7.  [get_target_emissions_dict] returns a value exactly when the
    lookup returns a non-empty list whose first pledge has both fields and
    [float] accepts both; [get_target_emissions] needs the same except that
    it never converts [baseline_year]. *)
Theorem target_functions_return_iff :
  forall data actor_id w,
    (is_ok (fst (get_target_emissions_dict float_of_str data actor_id w)) = true
     <-> exists p rest by_raw tv,
           fst (get_actor_pledge actor_id w) = Ok (p :: rest) /\
           p !! "baseline_year" = Some by_raw /\
           p !! "target_value" = Some tv /\
           is_ok (py_float float_of_str by_raw) = true /\
           is_ok (py_float float_of_str tv) = true) /\
    (is_ok (fst (get_target_emissions float_of_str data actor_id w)) = true
     <-> exists p rest by_raw tv,
           fst (get_actor_pledge actor_id w) = Ok (p :: rest) /\
           p !! "baseline_year" = Some by_raw /\
           p !! "target_value" = Some tv /\
           is_ok (py_float float_of_str tv) = true).
Proof.
  intros data actor_id w.
  rewrite get_target_emissions_dict_run, get_target_emissions_run.
  destruct (get_actor_pledge actor_id w) as [[pledges|e] w']; cbn [fst snd].
  2:{ split; (split; [discriminate|]);
        intros (p & rest & by_raw & tv & H & _); discriminate. }
  destruct pledges as [|p rest].
  { split; (split; [discriminate|]);
      intros (p & rest & by_raw & tv & H & _); discriminate. }
  cbn [dict_of_pledges series_of_pledges].
  destruct (p !! "baseline_year") as [by_raw|] eqn:Hby.
  2:{ split; (split; [discriminate|]);
        intros (p' & rest' & by' & tv' & H & Hb & _);
        inversion H; subst; congruence. }
  destruct (p !! "target_value") as [tv|] eqn:Htv.
  2:{ split; (split;
        [destruct (py_float float_of_str by_raw); discriminate|]).
      - intros (p' & rest' & by' & tv' & H & _ & Ht & _).
        inversion H; subst; congruence.
      - intros (p' & rest' & by' & tv' & H & _ & Ht & _).
        inversion H; subst; congruence. }
  split; split.
  - intros Hok. exists p, rest, by_raw, tv.
    destruct (py_float float_of_str by_raw); [|discriminate].
    destruct (py_float float_of_str tv); [|discriminate].
    repeat split; reflexivity || assumption.
  - intros (p' & rest' & by' & tv' & H & Hb & Ht & Hfb & Hft).
    inversion H; subst. rewrite Hby in Hb. rewrite Htv in Ht.
    inversion Hb; inversion Ht; subst.
    destruct (py_float float_of_str by'); [|discriminate].
    destruct (py_float float_of_str tv'); [reflexivity|discriminate].
  - intros Hok. exists p, rest, by_raw, tv.
    destruct (py_float float_of_str tv); [|discriminate].
    repeat split; reflexivity || assumption.
  - intros (p' & rest' & by' & tv' & H & Hb & Ht & Hft).
    inversion H; subst. rewrite Htv in Ht. inversion Ht; subst.
    destruct (py_float float_of_str tv'); [reflexivity|discriminate].
Qed.

(** X8.  Missing fields of the first pledge.  Without ['baseline_year']
    both functions raise [KeyError] for that key, whatever else is missing.
    With it but without ['target_value'], [get_target_emissions] raises
    [KeyError] for ['target_value'], and [get_target_emissions_dict] does so
    too unless [float(baseline_year)] raised first. *)
Theorem target_missing_field :
  forall data actor_id w w' p rest,
    get_actor_pledge actor_id w = (Ok (p :: rest), w') ->
    (p !! "baseline_year" = None ->
       get_target_emissions_dict float_of_str data actor_id w
         = (Raise (KeyError "baseline_year"), w') /\
       get_target_emissions float_of_str data actor_id w
         = (Raise (KeyError "baseline_year"), w')) /\
    (forall by_raw,
        p !! "baseline_year" = Some by_raw ->
        p !! "target_value" = None ->
        get_target_emissions float_of_str data actor_id w
          = (Raise (KeyError "target_value"), w') /\
        get_target_emissions_dict float_of_str data actor_id w
          = (match py_float float_of_str by_raw with
             | Ok _ => Raise (KeyError "target_value")
             | Raise e => Raise e
             end, w')).
Proof.
  intros data actor_id w w' p rest Hget.
  rewrite get_target_emissions_dict_run, get_target_emissions_run, Hget.
  cbn [dict_of_pledges series_of_pledges]. split.
  - intros Hby. rewrite Hby. split; reflexivity.
  - intros by_raw Hby Htv. rewrite Hby, Htv. split; [reflexivity|].
    destruct (py_float float_of_str by_raw); reflexivity.
Qed.

(** X9.  A [target_value] that [float] rejects.  When the first pledge has
    a [baseline_year] that [float] accepts, both functions raise what
    [float] raises on [target_value]: [TypeError] for null, [ValueError] for
    a string that is no number. *)
Theorem target_value_not_a_number :
  forall data actor_id w w' p rest by_raw tv,
    get_actor_pledge actor_id w = (Ok (p :: rest), w') ->
    p !! "baseline_year" = Some by_raw ->
    is_ok (py_float float_of_str by_raw) = true ->
    p !! "target_value" = Some tv ->
    is_number tv = false ->
    (forall s, tv = PStr s -> float_of_str s = None) ->
    let e := match tv with PNone => TypeError | _ => ValueError end in
    get_target_emissions_dict float_of_str data actor_id w = (Raise e, w') /\
    get_target_emissions float_of_str data actor_id w = (Raise e, w').
Proof.
  intros data actor_id w w' p rest by_raw tv Hget Hby Hnum Htv Hnot Hstr e.
  rewrite get_target_emissions_dict_run, get_target_emissions_run, Hget.
  cbn [dict_of_pledges series_of_pledges]. rewrite Hby, Htv.
  destruct (py_float float_of_str by_raw) as [Y|e0]; [|discriminate].
  destruct tv as [|b|z|q|s]; try discriminate; subst e; cbn.
  - split; reflexivity.
  - rewrite (Hstr s eq_refl). split; reflexivity.
Qed.

Lemma scale_bounds (b P : Q) :
  (0 <= b -> 0 <= P -> P <= 100 ->
   0 <= b * ((100 - P) / 100) /\ b * ((100 - P) / 100) <= b)%Q.
Proof.
  intros Hb H0 H100.
  assert (E : ((100 - P) / 100 == 1 - P * (1 # 100))%Q) by field.
  rewrite E.
  assert (Hk0 : (0 <= 1 - P * (1 # 100))%Q) by lra.
  assert (Hk1 : (1 - P * (1 # 100) <= 1)%Q) by lra.
  generalize dependent (1 - P * (1 # 100))%Q. intros k _ Hk0 Hk1.
  split; nra.
Qed.

(** The series computed for a pledge whose two fields convert. *)
Lemma dict_of_good_pledge data actor_id w w' p rest by_raw tv Y P :
  get_actor_pledge actor_id w = (Ok (p :: rest), w') ->
  p !! "baseline_year" = Some by_raw ->
  py_float float_of_str by_raw = Ok Y ->
  p !! "target_value" = Some tv ->
  py_float float_of_str tv = Ok P ->
  get_target_emissions_dict float_of_str data actor_id w
  = (Ok (TargetDict
           (series_mul (map (fun r => (idx r, total_emissions r))
                            (rows_of_year data Y))
                       ((100 - P) / 100)%Q)
           Y), w').
Proof.
  intros Hget Hby HY Htv HP.
  rewrite get_target_emissions_dict_run, Hget.
  unfold dict_of_pledges. rewrite Hby, HY, Htv, HP.
  rewrite loc_total_emissions_mask. reflexivity.
Qed.


(** X11.  With a percentage between 0 and 100 and no negative emissions,
    every target value lies between 0 and the emissions of its baseline
    row. *)
Theorem target_within_baseline :
  forall data actor_id w w' p rest by_raw tv Y P,
    get_actor_pledge actor_id w = (Ok (p :: rest), w') ->
    p !! "baseline_year" = Some by_raw ->
    py_float float_of_str by_raw = Ok Y ->
    p !! "target_value" = Some tv ->
    py_float float_of_str tv = Ok P ->
    (0 <= P)%Q -> (P <= 100)%Q ->
    Forall (fun r => (0 <= total_emissions r)%Q) data ->
    exists T,
      get_target_emissions_dict float_of_str data actor_id w
        = (Ok (TargetDict T Y), w') /\
      Forall2 (fun r t => (0 <= snd t)%Q /\ (snd t <= total_emissions r)%Q)
              (rows_of_year data Y) T.
Proof.
  intros data actor_id w w' p rest by_raw tv Y P Hget Hby HY Htv HP H0 H100 Hpos.
  eexists. split; [exact (dict_of_good_pledge _ _ _ _ _ _ _ _ _ _ Hget Hby HY Htv HP)|].
  assert (Hrows : Forall (fun r => (0 <= total_emissions r)%Q) (rows_of_year data Y)).
  { apply Forall_forall. intros r Hr. rewrite Forall_forall in Hpos.
    apply Hpos. apply list_elem_of_In. apply list_elem_of_In in Hr.
    unfold rows_of_year in Hr. apply List.filter_In in Hr. tauto. }
  induction Hrows as [|r rows Hr _ IH]; cbn; constructor.
  - cbn. apply scale_bounds; assumption.
  - exact IH.
Qed.

End TargetMore.

(** ** The country chart loop *)

Section ChartMore.

Variable float_of_str : string -> option Q.
Variable ax_plot : plot_call -> result unit.

Implicit Types (unfccc : DataFrame) (w : world) (actor_id : string)
  (codes : list string).


(** X12.  When the target computation returned and the actor has rows, the
    loop body draws the emissions line and then, if that call was accepted,
    a level line: its x values are the baseline year and the year of the
    actor's last row, its two y values are the same converted target series,
    and the body ends as that second call ends. *)
Theorem country_body_draws_level_line :
  forall unfccc actor_id w w' td last_year,
    let data := loc_actor unfccc actor_id in
    let emissions_line :=
      PlotEmissions (col_year data)
        (series_mul (col_total_emissions data) conversion) actor_id in
    let level := series_mul (target_emissions td) conversion in
    let target_line :=
      PlotTargetLevel (baseline_year td, last_year) (level, level)
        (actor_id ++ " target level") in
    get_target_emissions_dict float_of_str data actor_id w = (Ok td, w') ->
    getitem_last (values (col_year data)) = Ok last_year ->
    ax_plot emissions_line = Ok tt ->
    country_container_body float_of_str ax_plot unfccc actor_id w
    = (ax_plot target_line,
       World (remote w') (pledge_cache w') (http_log w')
             (plot_calls w' ++ [emissions_line; target_line])).
Proof.
  intros unfccc actor_id w w' td last_year data emissions_line level
         target_line Hdict Hlast Hacc.
  unfold country_container_body. fold data.
  unfold bind at 1. rewrite Hdict.
  unfold bind at 1. unfold plot at 1. fold emissions_line. rewrite Hacc.
  unfold bind at 1, lift. rewrite Hlast.
  unfold plot. cbn [remote pledge_cache http_log plot_calls].
  fold level. fold target_line. rewrite <- app_assoc. reflexivity.
Qed.

(** X13.  For an actor without rows in the inventory the body raises
    [IndexError] at [list(data['year'])[-1]]: when the target computation
    returned and the empty emissions line was accepted, that line is the
    only call issued and the level line is never attempted. *)
Theorem country_body_without_rows :
  forall unfccc actor_id w w' td,
    loc_actor unfccc actor_id = [] ->
    get_target_emissions_dict float_of_str [] actor_id w = (Ok td, w') ->
    ax_plot (PlotEmissions [] [] actor_id) = Ok tt ->
    country_container_body float_of_str ax_plot unfccc actor_id w
    = (Raise IndexError,
       World (remote w') (pledge_cache w') (http_log w')
             (plot_calls w' ++ [PlotEmissions [] [] actor_id])).
Proof.
  intros unfccc actor_id w w' td Hrows Hdict Hacc.
  unfold country_container_body. rewrite Hrows.
  unfold bind at 1. rewrite Hdict.
  unfold bind at 1. unfold plot at 1. cbn [col_year col_total_emissions map series_mul].
  rewrite Hacc. reflexivity.
Qed.

(** What the body does to the cache, the request log and the server is
    what the pledge lookup does. *)
Lemma country_body_effects unfccc actor_id w :
  pledge_cache (snd (country_container_body float_of_str ax_plot unfccc actor_id w))
    = pledge_cache (snd (get_actor_pledge actor_id w)) /\
  http_log (snd (country_container_body float_of_str ax_plot unfccc actor_id w))
    = http_log (snd (get_actor_pledge actor_id w)) /\
  (is_ok (fst (country_container_body float_of_str ax_plot unfccc actor_id w)) = true ->
   is_ok (fst (get_actor_pledge actor_id w)) = true /\
   length (plot_calls (snd (country_container_body float_of_str ax_plot unfccc actor_id w)))
     = (length (plot_calls w) + 2)%nat).
Proof.
  pose proof (get_actor_pledge_frame actor_id w) as [Hframe _].
  unfold country_container_body, bind, plot, lift.
  rewrite get_target_emissions_dict_run.
  destruct (get_actor_pledge actor_id w) as [[pledges|e] w1]; cbn [fst snd] in *;
    [|repeat split; discriminate].
  destruct (dict_of_pledges float_of_str (loc_actor unfccc actor_id) pledges)
    as [td|e]; [|repeat split; discriminate].
  destruct (ax_plot _) as [[]|e]; cbn [fst snd pledge_cache http_log];
    [|repeat split; discriminate].
  destruct (getitem_last _) as [last_year|e];
    cbn [fst snd pledge_cache http_log plot_calls];
    [|repeat split; discriminate].
  repeat split. rewrite !length_app, Hframe. cbn. lia.
Qed.

Lemma country_container_split unfccc codes1 codes2 w :
  country_container float_of_str ax_plot unfccc (codes1 ++ codes2)%list w
  = match country_container float_of_str ax_plot unfccc codes1 w with
    | (Ok _, w') => country_container float_of_str ax_plot unfccc codes2 w'
    | (Raise e, w') => (Raise e, w')
    end.
Proof.
  revert codes2 w. induction codes1 as [|a codes1 IH]; intros codes2 w.
  - reflexivity.
  - cbn [app country_container]. unfold bind.
    destruct (country_container_body float_of_str ax_plot unfccc a w) as [[[]|e] w1]; [apply IH | reflexivity].
Qed.

(** X14.  The loop over a concatenation of code lists is the loop over the
    first list followed, if it did not raise, by the loop over the second
    from the world the first one left. *)
Theorem country_container_app :
  forall unfccc codes1 codes2 w,
    country_container float_of_str ax_plot unfccc (codes1 ++ codes2)%list w
    = match country_container float_of_str ax_plot unfccc codes1 w with
      | (Ok _, w') => country_container float_of_str ax_plot unfccc codes2 w'
      | (Raise e, w') => (Raise e, w')
      end.
Proof. intros. apply country_container_split. Qed.

(** X27.  The first actor whose iteration raises ends the whole loop with
    that exception: the actors after it are never looked up and nothing is
    drawn for them, so the outcome and the world do not depend on them. *)
Theorem country_container_stops_at_failure :
  forall unfccc before actor_id after w w1 e w2,
    country_container float_of_str ax_plot unfccc before w = (Ok tt, w1) ->
    country_container_body float_of_str ax_plot unfccc actor_id w1 = (Raise e, w2) ->
    country_container float_of_str ax_plot unfccc (before ++ actor_id :: after)%list w = (Raise e, w2).
Proof.
  intros unfccc before actor_id after w w1 e w2 Hbefore Hbody.
  rewrite country_container_split, Hbefore.
  cbn [country_container]. unfold bind. rewrite Hbody. reflexivity.
Qed.

(** A stored list stays stored through the loop. *)
Lemma country_container_keeps_cached unfccc codes w actor_id :
  is_Some (pledge_cache w !! actor_id) ->
  is_Some (pledge_cache (snd (country_container float_of_str ax_plot unfccc codes w)) !! actor_id).
Proof.
  revert w. induction codes as [|b codes IH]; intros w Hs; [exact Hs|].
  cbn [country_container]. unfold bind.
  destruct (country_body_effects unfccc b w) as (Hc & _ & _).
  assert (Hs1 : is_Some (pledge_cache (snd (country_container_body float_of_str ax_plot unfccc b w)) !! actor_id)).
  { rewrite Hc, lookup_keeps_cache by (right; exact Hs). exact Hs. }
  destruct (country_container_body float_of_str ax_plot unfccc b w) as [[[]|e] w1]; cbn [snd] in *;
    [apply IH, Hs1 | exact Hs1].
Qed.

Lemma country_container_ok_facts unfccc codes w w' :
  country_container float_of_str ax_plot unfccc codes w = (Ok tt, w') ->
  length (plot_calls w')
    = (length (plot_calls w) + 2 * length codes)%nat /\
  forall actor_id, In actor_id codes ->
    is_Some (pledge_cache w' !! actor_id).
Proof.
  revert w w'. induction codes as [|a codes IH]; intros w w' Hrun.
  - cbn in Hrun. inversion Hrun; subst. split; [cbn; lia | intros ? []].
  - cbn [country_container] in Hrun. unfold bind in Hrun.
    destruct (country_body_effects unfccc a w) as (Hc & _ & Hok).
    destruct (country_container_body float_of_str ax_plot unfccc a w) as [[[]|e] w1] eqn:Hbody; [|discriminate].
    cbn [fst snd] in Hc, Hok. destruct (Hok eq_refl) as [Hlook Hlen].
    destruct (IH w1 w' Hrun) as [Hcalls Hcached].
    split; [rewrite Hcalls, Hlen; cbn [length]; lia|].
    intros actor_id [<-|Hin]; [|apply Hcached, Hin].
    assert (Hs : is_Some (pledge_cache w1 !! a)).
    { rewrite Hc.
      destruct (get_actor_pledge a w) as [[ps|e] w2] eqn:Hget; [|discriminate].
      exists ps. exact (get_actor_pledge_stored _ _ _ _ Hget). }
    pose proof (country_container_keeps_cached unfccc codes w1 a Hs) as Hk.
    rewrite Hrun in Hk. exact Hk.
Qed.

(** X15.  When the loop ends without an exception it has issued exactly
    two plot calls for every code in the list, and every code's pledges are
    in the cache. *)
Theorem country_container_ok :
  forall unfccc codes w w',
    country_container float_of_str ax_plot unfccc codes w = (Ok tt, w') ->
    length (plot_calls w')
      = (length (plot_calls w) + 2 * length codes)%nat /\
    forall actor_id, In actor_id codes ->
      is_Some (pledge_cache w' !! actor_id).
Proof. intros unfccc codes w w'. apply country_container_ok_facts. Qed.

(** With every code's pledges in the cache the loop sends nothing and
    stores nothing. *)
Lemma country_container_cached unfccc codes w :
  (forall actor_id, In actor_id codes -> is_Some (pledge_cache w !! actor_id)) ->
  pledge_cache (snd (country_container float_of_str ax_plot unfccc codes w)) = pledge_cache w /\
  http_log (snd (country_container float_of_str ax_plot unfccc codes w)) = http_log w.
Proof.
  revert w. induction codes as [|a codes IH]; intros w Hall.
  - split; reflexivity.
  - cbn [country_container]. unfold bind.
    destruct (country_body_effects unfccc a w) as (Hc & Hl & _).
    destruct (Hall a (or_introl eq_refl)) as [ps Hps].
    rewrite (get_actor_pledge_hit _ _ _ Hps) in Hc, Hl. cbn [snd] in Hc, Hl.
    destruct (country_container_body float_of_str ax_plot unfccc a w) as [[[]|e] w1]; cbn [snd] in *;
      [|split; assumption].
    destruct (IH w1) as [Hc1 Hl1].
    { intros b Hb. rewrite Hc. apply Hall. right. exact Hb. }
    split; congruence.
Qed.

End ChartMore.

(** X16.  Running the script again after a run that drew the whole chart
    sends no request and leaves the cache as it is, whatever the plotting
    surface and the server do this time: the second run may use another
    surface and start from any world with the same cache. *)
Theorem country_container_rerun_offline :
  forall float_of_str ax_plot ax_plot' unfccc codes w w1 w2,
    country_container float_of_str ax_plot unfccc codes w = (Ok tt, w1) ->
    pledge_cache w2 = pledge_cache w1 ->
    pledge_cache
      (snd (country_container float_of_str ax_plot' unfccc codes w2))
    = pledge_cache w2 /\
    http_log
      (snd (country_container float_of_str ax_plot' unfccc codes w2))
    = http_log w2.
Proof.
  intros float_of_str ax_plot ax_plot' unfccc codes w w1 w2 Hrun Hsame.
  apply country_container_cached. intros a Ha. rewrite Hsame.
  exact (proj2 (country_container_ok_facts float_of_str ax_plot
                  unfccc codes w w1 Hrun) a Ha).
Qed.

(** ** Choosing the countries *)

Section Selection.

Implicit Types (countries : list actor_row) (options : list string).

Lemma country_codes_cons c countries options :
  country_codes (c :: countries) options
  = if decide (a_name c ∈ options)
    then (a_idx c, a_actor c) :: country_codes countries options
    else country_codes countries options.
Proof.
  unfold country_codes. rewrite filter_cons.
  destruct (decide (a_name c ∈ options)); reflexivity.
Qed.

(** X17.  The selected codes come in the order of the [countries] table
    and depend on the chosen names only as a set: choosing the same names
    in another order, or a name twice, selects the same codes; each table
    row is selected exactly when its name was chosen. *)
Theorem country_codes_by_table_order :
  forall countries options,
    (forall options',
        (forall name, name ∈ options <-> name ∈ options') ->
        country_codes countries options = country_codes countries options') /\
    (forall before c after,
        countries = (before ++ c :: after)%list ->
        country_codes countries options
        = (country_codes before options
           ++ (if decide (a_name c ∈ options) then [(a_idx c, a_actor c)] else [])
           ++ country_codes after options)%list).
Proof.
  intros countries options. split.
  - intros options' Hsame.
    induction countries as [|c countries IH]; [reflexivity|].
    rewrite !country_codes_cons, IH.
    destruct (decide (a_name c ∈ options)) as [Hin|Hout];
      destruct (decide (a_name c ∈ options')) as [Hin'|Hout'];
      try reflexivity; exfalso.
    + apply Hout', Hsame, Hin.
    + apply Hout, Hsame, Hin'.
  - intros before c after ->.
    induction before as [|b before IH].
    + cbn [app]. rewrite country_codes_cons.
      destruct (decide (a_name c ∈ options)); reflexivity.
    + change ((b :: before) ++ c :: after)%list
        with (b :: (before ++ c :: after))%list.
      rewrite !country_codes_cons, IH.
      destruct (decide (a_name b ∈ options)); reflexivity.
Qed.

Lemma selected_actor_cons c countries option :
  selected_actor (c :: countries) option
  = if decide (a_name c = option) then Ok (a_actor c)
    else selected_actor countries option.
Proof.
  unfold selected_actor. rewrite filter_cons.
  destruct (decide (a_name c = option)); reflexivity.
Qed.

(** X18.  The country of the reconciliation view is the code of the first
    table row with the chosen name; when no row has that name the lookup
    raises [IndexError], and it raises nothing else. *)
Theorem selected_actor_first_match :
  forall countries option,
    (selected_actor countries option = Raise IndexError <->
     Forall (fun c => a_name c <> option) countries) /\
    (forall actor_id,
        selected_actor countries option = Ok actor_id <->
        exists before c after,
          countries = (before ++ c :: after)%list /\
          Forall (fun c' => a_name c' <> option) before /\
          a_name c = option /\ a_actor c = actor_id) /\
    (forall e, selected_actor countries option = Raise e -> e = IndexError).
Proof.
  intros countries option.
  induction countries as [|c countries (IHr & IHo & IHe)].
  - split; [|split].
    + split; [constructor | reflexivity].
    + intros a. split; [discriminate|].
      intros ([|? ?] & c & after & H & _); discriminate.
    + intros e H. cbv in H. congruence.
  - rewrite selected_actor_cons.
    destruct (decide (a_name c = option)) as [Heq|Hne]; split; [|split| |split].
    + split; [discriminate|]. intros H. inversion H; subst. contradiction.
    + intros a. split.
      * intros H. inversion H; subst. exists [], c, countries.
        repeat split. constructor.
      * intros (before & c' & after & Hsplit & Hb & Hn & Ha).
        destruct before as [|b before]; cbn in Hsplit; inversion Hsplit; subst.
        -- reflexivity.
        -- inversion Hb; subst. contradiction.
    + discriminate.
    + rewrite IHr. split; [intros H; constructor; assumption|].
      intros H. inversion H; assumption.
    + intros a. rewrite IHo. split.
      * intros (before & c' & after & -> & Hb & Hn & Ha).
        exists (c :: before), c', after. repeat split; try assumption.
        constructor; assumption.
      * intros (before & c' & after & Hsplit & Hb & Hn & Ha).
        destruct before as [|b before]; cbn in Hsplit; inversion Hsplit; subst.
        -- contradiction.
        -- inversion Hb; subst. exists before, c', after. repeat split; assumption.
    + exact IHe.
Qed.

End Selection.

(** ** More on the aggregation by year *)

Section AggregationMore.

Implicit Types (df : DataFrame) (groups : list (Z * Q)).

Lemma add_to_group_length y v groups :
  (length (add_to_group y v groups) <= S (length groups))%nat.
Proof.
  induction groups as [|[y' s] rest IH]; cbn [add_to_group]; [cbn; lia|].
  destruct (y <? y'); [cbn; lia|]. destruct (y =? y'); cbn; lia.
Qed.

Lemma fold_add_length rows groups :
  (length (fold_left
             (fun g r => add_to_group (year r) (total_emissions r) g)
             rows groups)
   <= length groups + length rows)%nat.
Proof.
  revert groups. induction rows as [|r rows IH]; intros groups; cbn; [lia|].
  specialize (IH (add_to_group (year r) (total_emissions r) groups)).
  pose proof (add_to_group_length (year r) (total_emissions r) groups). lia.
Qed.

(** X19.  The aggregated rows come in strictly ascending order of year,
    whatever the order of the input, and there are never more of them than
    input rows. *)
Theorem df_sum_sorted_by_year :
  forall df,
    StronglySorted Z.lt (map fst (df_sum df)) /\
    (length (df_sum df) <= length df)%nat.
Proof.
  intros df. split.
  - exact (proj1 (df_sum_totals df)).
  - exact (fold_add_length df []).
Qed.

Lemma add_to_group_last y v groups :
  Forall (fun k => k < y) (map fst groups) ->
  add_to_group y v groups = (groups ++ [(y, v)])%list.
Proof.
  induction groups as [|[y' s] rest IH]; intros H; [reflexivity|].
  cbn [map fst] in H. inversion H as [|? ? Hlt Hrest]; subst.
  cbn [add_to_group].
  destruct (y <? y') eqn:E1; [apply Z.ltb_lt in E1; lia|].
  destruct (y =? y') eqn:E2; [apply Z.eqb_eq in E2; lia|].
  cbn. f_equal. apply IH, Hrest.
Qed.

Lemma sorted_app_before (l1 l2 : list Z) (y : Z) :
  StronglySorted Z.lt (l1 ++ y :: l2)%list -> Forall (fun k => k < y) l1.
Proof.
  induction l1 as [|x l1 IH]; intros H; [constructor|].
  cbn in H. inversion H as [|? ? Hs Hall]; subst.
  constructor; [|apply IH, Hs].
  rewrite Forall_forall in Hall. apply Hall.
  apply list_elem_of_In, in_or_app. right. left. reflexivity.
Qed.

Lemma fold_add_sorted rows groups :
  StronglySorted Z.lt (map fst groups ++ map year rows)%list ->
  fold_left (fun g r => add_to_group (year r) (total_emissions r) g)
            rows groups
  = (groups ++ map (fun r => (year r, total_emissions r)) rows)%list.
Proof.
  revert groups. induction rows as [|r rows IH]; intros groups Hs.
  - cbn. rewrite app_nil_r. reflexivity.
  - cbn [fold_left map]. cbn [map] in Hs.
    rewrite (add_to_group_last _ _ _ (sorted_app_before _ _ _ Hs)).
    rewrite IH.
    + rewrite <- app_assoc. reflexivity.
    + rewrite map_app. cbn [map fst]. rewrite <- app_assoc. exact Hs.
Qed.

(** X21.  A table that already has one row per year in ascending order is
    returned as it is: aggregation then only drops the other columns.  In
    particular aggregating an aggregated table changes nothing. *)
Theorem df_sum_of_sorted_years :
  forall df,
    StronglySorted Z.lt (map year df) ->
    df_sum df = map (fun r => (year r, total_emissions r)) df.
Proof.
  intros df Hs. unfold df_sum. rewrite fold_add_sorted; [reflexivity|].
  exact Hs.
Qed.

End AggregationMore.

(** ** More on the difference *)

Section ReconciliationMore.

Local Open Scope Q_scope.

Implicit Types (data df : DataFrame) (sums : list (Z * Q)) (d : list Q).

Lemma values_country_total data :
  values (country_total data)
  = map (fun r => (total_emissions r * conversion)%Q) data.
Proof.
  unfold values, country_total, series_mul, col_total_emissions.
  rewrite !map_map. reflexivity.
Qed.

(** X22.  Stretching a single entry.  Against an aggregated table of one
    row the difference has one value per national row, each the national
    value minus that one aggregate; a single national row is likewise
    subtracted from by every aggregated row, giving as many values as there
    are aggregated rows; any other mismatch of lengths raises
    [ValueError]. *)
Theorem difference_single_entry :
  (forall data g,
      difference data [g]
      = Ok (map (fun r => (total_emissions r * conversion
                           - snd g * conversion)%Q) data)) /\
  (forall r sums,
      difference [r] sums
      = Ok (map (fun g => (total_emissions r * conversion
                           - snd g * conversion)%Q) sums)) /\
  (forall data sums,
      length data <> length sums ->
      length data <> 1%nat -> length sums <> 1%nat ->
      difference data sums = Raise ValueError).
Proof.
  unfold difference. split; [|split].
  - intros data g. rewrite values_country_total.
    destruct data as [|r [|r' data]]; reflexivity || (cbn; rewrite map_map; reflexivity).
  - intros r sums. rewrite values_country_total.
    unfold subnational_total.
    destruct sums as [|g [|g' sums]]; reflexivity || (cbn; rewrite map_map; reflexivity).
  - intros data sums Hne H1 H2. rewrite values_country_total.
    unfold subnational_total, np_subtract. rewrite !length_map.
    destruct (length data =? length sums)%nat eqn:E;
      [apply Nat.eqb_eq in E; contradiction|].
    destruct data as [|r [|r' data]], sums as [|g [|g' sums]];
      cbn in *; try reflexivity; lia.
Qed.

(** X23.  When national and aggregated totals agree row by row, every
    entry of the difference is zero. *)
Theorem difference_zero_when_totals_agree :
  forall data sums,
    Forall2 (fun r g => total_emissions r == snd g) data sums ->
    exists d,
      difference data sums = Ok d /\
      length d = length data /\
      Forall (fun x => x == 0) d.
Proof.
  intros data sums H.
  pose proof (Forall2_length _ _ _ H) as Hlen.
  eexists. split; [apply difference_same_length, Hlen|].
  split; [apply zip_sub_length, Hlen|].
  rewrite values_country_total. unfold subnational_total. clear Hlen.
  induction H as [|r g data sums Hrg _ IH]; cbn; constructor.
  - rewrite Hrg. ring.
  - exact IH.
Qed.

(** X24.  The reconciliation view reads the ECCC inventory for "CA" and
    the EPA inventory for "US", and only that one.  For any other country
    code it raises: [ValueError] from the axis limit when the country has no
    national rows, and otherwise [NameError] because [subnational_total] was
    never bound.  Whenever it returns, it returns one point per national
    row. *)
Theorem subnational_container_by_country :
  forall unfccc df_eccc df_epa actor_id,
    (actor_id = "CA" ->
     forall df_epa',
       subnational_container unfccc df_eccc df_epa actor_id
       = subnational_container unfccc df_eccc df_epa' actor_id) /\
    (actor_id = "US" ->
     forall df_eccc',
       subnational_container unfccc df_eccc df_epa actor_id
       = subnational_container unfccc df_eccc' df_epa actor_id) /\
    (actor_id <> "CA" -> actor_id <> "US" ->
     subnational_container unfccc df_eccc df_epa actor_id
     = match loc_actor unfccc actor_id with
       | [] => Raise ValueError
       | _ :: _ => Raise (NameError "subnational_total")
       end) /\
    (forall points,
        subnational_container unfccc df_eccc df_epa actor_id = Ok points ->
        loc_actor unfccc actor_id <> [] /\
        map fst points = map year (loc_actor unfccc actor_id)).
Proof.
  intros unfccc df_eccc df_epa actor_id. unfold subnational_container.
  split; [|split; [|split]].
  - intros -> df_epa'. reflexivity.
  - intros -> df_eccc'. reflexivity.
  - intros H1 H2. rewrite !decide_False by assumption.
    destruct (loc_actor unfccc actor_id); reflexivity.
  - intros points.
    destruct (loc_actor unfccc actor_id) as [|r data] eqn:Hdata;
      [discriminate|].
    destruct (series_max _); [|discriminate].
    destruct (if decide (actor_id = "US") then _ else _) as [sums|];
      [|discriminate].
    destruct (difference (r :: data) sums) as [d|e]; [|discriminate].
    destruct (np_max _); [|discriminate].
    destruct (_ =? _)%nat eqn:Hlen; [|discriminate].
    intros H. inversion H; subst. split; [discriminate|].
    apply Nat.eqb_eq in Hlen. unfold difference_series.
    revert Hlen. unfold values, col_year. rewrite map_map. cbn [snd].
    generalize (r :: data). clear. intros l. revert d.
    induction l as [|x l IH]; intros [|v d] Hlen; try discriminate;
      [reflexivity|].
    cbn in Hlen. cbn. f_equal. apply IH. lia.
Qed.

(** *** Axis limits *)

Lemma Qmax2_ge (a b : Q) : a <= Qmax2 a b /\ b <= Qmax2 a b.
Proof.
  unfold Qmax2. destruct (Qle_bool a b) eqn:E.
  - apply Qle_bool_iff in E. split; [exact E | apply Qle_refl].
  - split; [apply Qle_refl|].
    destruct (Qlt_le_dec b a) as [Hlt|Hle]; [apply Qlt_le_weak, Hlt|].
    apply Qle_bool_iff in Hle. congruence.
Qed.

Lemma series_max_ge (xs : list Q) (m : Q) :
  series_max xs = Some m -> Forall (fun x => x <= m) xs.
Proof.
  revert m. induction xs as [|x xs IH]; intros m H; [constructor|].
  cbn in H. destruct (series_max xs) as [m'|] eqn:E; inversion H; subst.
  - destruct (Qmax2_ge x m') as [Hx Hm]. constructor; [exact Hx|].
    eapply Forall_impl; [exact (IH m' eq_refl)|].
    intros y Hy. cbn in Hy. eapply Qle_trans; [exact Hy | exact Hm].
  - constructor; [apply Qle_refl|].
    destruct xs; [constructor | discriminate].
Qed.

Lemma ymax_update_ge (ymax : Q) (t : option Q) :
  ymax <= ymax_update ymax t /\
  (forall m, t = Some m -> m <= ymax_update ymax t).
Proof.
  unfold ymax_update. destruct t as [m|]; [|split; [apply Qle_refl | discriminate]].
  destruct (Qle_bool m ymax) eqn:E.
  - apply Qle_bool_iff in E. split; [apply Qle_refl|].
    intros m' H. inversion H; subst. exact E.
  - split.
    + destruct (Qlt_le_dec ymax m) as [Hlt|Hle]; [apply Qlt_le_weak, Hlt|].
      apply Qle_bool_iff in Hle. congruence.
    + intros m' H. inversion H; subst. apply Qle_refl.
Qed.

(** The running maximum over the actors ends above its start and above
    every converted emission of every actor it went through. *)
Lemma fold_ymax_ge df (actors : list string) (y0 : Q) :
  let ymax :=
    fold_left
      (fun ymax actor_id =>
         let subnat_data := loc_actor df actor_id in
         ymax_update ymax
           (series_max
              (values (series_mul (col_total_emissions subnat_data)
                                  conversion))))
      actors y0 in
  y0 <= ymax /\
  forall actor_id r,
    In actor_id actors -> In r df -> actor r = actor_id ->
    total_emissions r * conversion <= ymax.
Proof.
  revert y0. induction actors as [|a actors IH]; intros y0; cbn zeta.
  - split; [apply Qle_refl | intros ? ? []].
  - cbn [fold_left].
    set (t := series_max
                (values (series_mul (col_total_emissions (loc_actor df a))
                                    conversion))).
    destruct (IH (ymax_update y0 t)) as [Hge Hall]. cbn zeta in Hge, Hall.
    destruct (ymax_update_ge y0 t) as [H0 Ht]. split.
    + eapply Qle_trans; [exact H0 | exact Hge].
    + intros b r [<-|Hin] Hr Hb; [|exact (Hall b r Hin Hr Hb)].
      assert (Hmem : In (total_emissions r * conversion)
                        (values (series_mul (col_total_emissions (loc_actor df a))
                                            conversion))).
      { unfold values, series_mul, col_total_emissions. rewrite !map_map. cbn.
        apply (in_map (fun r0 => total_emissions r0 * conversion) _ r).
        apply list_elem_of_In. unfold loc_actor.
        apply list_elem_of_filter. split; [exact Hb | apply list_elem_of_In, Hr]. }
      destruct t as [m|] eqn:Et.
      * pose proof (series_max_ge _ _ Et) as Hmax.
        rewrite Forall_forall in Hmax.
        eapply Qle_trans; [apply Hmax, list_elem_of_In, Hmem|].
        eapply Qle_trans; [exact (Ht m eq_refl) | exact Hge].
      * subst t. destruct (values _) as [|x xs]; [destruct Hmem | discriminate].
Qed.

(** X25.  The upper limit of the country chart is at least 0.1 and at
    least every converted emission of every listed actor, so no emissions
    point lies above the axis. *)
Theorem country_ymax_covers_emissions :
  forall unfccc codes,
    1 / 10 <= country_ymax unfccc codes /\
    forall actor_id r,
      In actor_id codes -> In r unfccc -> actor r = actor_id ->
      total_emissions r * conversion <= country_ymax unfccc codes.
Proof.
  intros unfccc codes. exact (fold_ymax_ge unfccc codes (1 / 10)).
Qed.

(** X26.  The limit of the difference chart.  For an empty difference
    [abs(difference).max()] raises [ValueError].  Otherwise the limit is
    computed, every difference value lies between minus the limit and the
    limit, and every converted emission of every subnational actor gone
    through lies below it, in whatever order the actors come. *)
Theorem difference_ymax_covers :
  forall d df actors,
    (d = [] -> difference_ymax d df actors = Raise ValueError) /\
    (d <> [] ->
     exists ymax,
       difference_ymax d df actors = Ok ymax /\
       Forall (fun x => - ymax <= x /\ x <= ymax) d /\
       forall actor_id r,
         In actor_id actors -> In r df -> actor r = actor_id ->
         total_emissions r * conversion <= ymax).
Proof.
  intros d df actors. split; [intros ->; reflexivity|].
  intros Hne. unfold difference_ymax, np_max.
  destruct (series_max (map Qabs d)) as [y0|] eqn:E.
  - destruct (fold_ymax_ge df actors y0) as [Hge Hall]. cbn zeta in Hge, Hall.
    eexists. split; [reflexivity|]. split; [|exact Hall].
    pose proof (series_max_ge _ _ E) as Hmax.
    rewrite Forall_forall in Hmax. apply Forall_forall. intros x Hx.
    apply Qabs_Qle_condition.
    eapply Qle_trans; [|exact Hge].
    apply Hmax. apply list_elem_of_In.
    apply (in_map Qabs). apply list_elem_of_In, Hx.
  - destruct d; [contradiction | discriminate].
Qed.

End ReconciliationMore.

(** ** Instances of the properties above *)

Lemma target_missing_field_witness :
  get_target_emissions_dict float_of_decimal national_2005_2010 "CA"
    (fresh_world [mk_pledge [("target_value", PInt 30)]])
  = (Raise (KeyError "baseline_year"),
     snd (get_actor_pledge "CA"
            (fresh_world [mk_pledge [("target_value", PInt 30)]]))).
Proof.
  exact (proj1 (proj1 (target_missing_field float_of_decimal
                         national_2005_2010 "CA"
                         (fresh_world [mk_pledge [("target_value", PInt 30)]])
                         _ (mk_pledge [("target_value", PInt 30)]) []
                         eq_refl)
                  eq_refl)).
Defined.

Lemma target_value_not_a_number_witness :
  get_target_emissions float_of_decimal national_2005_2010 "CA"
    (fresh_world [mk_pledge [("baseline_year", PInt 2005);
                             ("target_value", PStr "thirty")]])
  = (Raise ValueError,
     snd (get_actor_pledge "CA"
            (fresh_world [mk_pledge [("baseline_year", PInt 2005);
                                     ("target_value", PStr "thirty")]]))).
Proof.
  refine (proj2 (target_value_not_a_number float_of_decimal
                   national_2005_2010 "CA"
                   (fresh_world [mk_pledge [("baseline_year", PInt 2005);
                                            ("target_value", PStr "thirty")]])
                   _ _ [] (PInt 2005) (PStr "thirty")
                   eq_refl eq_refl eq_refl eq_refl eq_refl _)).
  intros s H. inversion H. reflexivity.
Defined.


Lemma target_within_baseline_witness :
  exists T,
    get_target_emissions_dict float_of_decimal national_2005_2010 "CA"
      (fresh_world [pledge_2005_30])
    = (Ok (TargetDict T 2005),
       snd (get_actor_pledge "CA" (fresh_world [pledge_2005_30]))) /\
    Forall (fun t => (0 <= snd t)%Q) T.
Proof.
  destruct (target_within_baseline float_of_decimal national_2005_2010
              "CA" (fresh_world [pledge_2005_30]) _ pledge_2005_30 []
              (PInt 2005) (PInt 30) 2005%Q 30%Q
              eq_refl eq_refl eq_refl eq_refl eq_refl)
    as (T & Hrun & Hb).
  - discriminate.
  - discriminate.
  - repeat constructor; discriminate.
  - exists T. split; [exact Hrun|].
    clear Hrun. induction Hb as [|r t rows T [H0 _] _ IH]; constructor;
      assumption.
Defined.

Lemma country_body_draws_level_line_witness :
  fst (country_container_body float_of_decimal ax_plot_accept
         national_2005_2010 "CA" (fresh_world [pledge_2005_30]))
  = Ok tt.
Proof.
  erewrite (country_body_draws_level_line float_of_decimal ax_plot_accept
              national_2005_2010 "CA" (fresh_world [pledge_2005_30]));
    reflexivity.
Defined.

Lemma country_body_without_rows_witness :
  fst (country_container_body float_of_decimal ax_plot_accept
         [] "CA" (fresh_world [pledge_2005_30]))
  = Raise IndexError.
Proof.
  erewrite (country_body_without_rows float_of_decimal ax_plot_accept
              [] "CA" (fresh_world [pledge_2005_30]));
    reflexivity.
Defined.

Lemma country_container_ok_witness :
  length (plot_calls
            (snd (country_container float_of_decimal ax_plot_accept
                    national_2005_2010 ["CA"; "CA"]
                    (fresh_world [pledge_2005_30]))))
  = 4%nat.
Proof.
  exact (proj1 (country_container_ok float_of_decimal ax_plot_accept
                  national_2005_2010 ["CA"; "CA"]
                  (fresh_world [pledge_2005_30]) _ eq_refl)).
Defined.

Lemma country_container_rerun_offline_witness :
  http_log
    (snd (country_container float_of_decimal (fun _ => Raise ValueError)
            national_2005_2010 ["CA"]
            (World (fun _ => Raise (RequestException "offline"))
                   (pledge_cache
                      (snd (country_container float_of_decimal ax_plot_accept
                              national_2005_2010 ["CA"]
                              (fresh_world [pledge_2005_30]))))
                   [] [])))
  = [].
Proof.
  exact (proj2 (country_container_rerun_offline float_of_decimal
                  ax_plot_accept (fun _ => Raise ValueError)
                  national_2005_2010 ["CA"]
                  (fresh_world [pledge_2005_30]) _
                  (World (fun _ => Raise (RequestException "offline"))
                         (pledge_cache
                            (snd (country_container float_of_decimal
                                    ax_plot_accept national_2005_2010 ["CA"]
                                    (fresh_world [pledge_2005_30]))))
                         [] [])
                  eq_refl eq_refl)).
Defined.

Lemma country_container_stops_at_failure_witness :
  fst (country_container float_of_decimal ax_plot_accept national_2005_2010
         (["CA"] ++ "XX" :: ["CA"])%list
         (World (fun url => if String.eqb url (actor_url "CA")
                            then Ok [pledge_2005_30] else Ok [])
                ∅ [] []))
  = Raise IndexError.
Proof.
  erewrite (country_container_stops_at_failure float_of_decimal
              ax_plot_accept national_2005_2010 ["CA"] "XX" ["CA"]);
    reflexivity.
Defined.

Lemma df_sum_of_sorted_years_witness :
  df_sum [Row 0 "ON" 2010 40; Row 1 "ON" 2011 42]
  = [(2010, 40%Q); (2011, 42%Q)].
Proof.
  apply (df_sum_of_sorted_years [Row 0 "ON" 2010 40; Row 1 "ON" 2011 42]).
  repeat constructor.
Defined.

Lemma difference_zero_when_totals_agree_witness :
  exists d,
    difference national_2010_2011 [(2010, 100%Q); (2011, 95%Q)] = Ok d /\
    Forall (fun x => x == 0) d.
Proof.
  destruct (difference_zero_when_totals_agree national_2010_2011
              [(2010, 100%Q); (2011, 95%Q)])
    as (d & Hd & _ & Hz).
  - repeat constructor.
  - exists d. split; [exact Hd | exact Hz].
Defined.

(** ** The legend of the difference chart *)

Section Legend.

Implicit Types (df : DataFrame) (actors : list string).

Lemma subnational_lines_from df actors (ind : Z) (lines : list subnational_line) :
  map line_label
    (snd (fold_left
            (fun st actor_id =>
               let subnat_data := loc_actor df actor_id in
               let subnat_emissions :=
                 series_mul (col_total_emissions subnat_data) conversion in
               if fst st =? 1
               then (fst st + 1,
                     (snd st ++ [SubnationalLine (col_year subnat_data)
                                   subnat_emissions (Some "Subnational")])%list)
               else (fst st,
                     (snd st ++ [SubnationalLine (col_year subnat_data)
                                   subnat_emissions None])%list))
            actors (ind, lines)))
  = (map line_label lines
     ++ match actors with
        | [] => []
        | _ :: rest =>
            (if ind =? 1 then Some "Subnational" else None)
              :: map (fun _ => None) rest
        end)%list.
Proof.
  revert ind lines. induction actors as [|a actors IH]; intros ind lines.
  - cbn. rewrite app_nil_r. reflexivity.
  - cbn [fold_left fst snd].
    destruct (ind =? 1) eqn:E.
    + rewrite IH, map_app. cbn [map line_label]. rewrite <- app_assoc.
      cbn [app]. f_equal. f_equal.
      apply Z.eqb_eq in E. subst ind.
      destruct actors as [|b actors]; reflexivity.
    + rewrite IH, map_app. cbn [map line_label]. rewrite <- app_assoc.
      cbn [app]. f_equal. f_equal.
      destruct actors as [|b actors]; [reflexivity|]. rewrite E. reflexivity.
Qed.

(** X28.  In the difference chart one line is drawn per subnational
    actor.  When there is at least one actor, the first line drawn carries
    the label "Subnational" and no later subnational line carries a label;
    with no actor no subnational line is drawn. *)
Theorem subnational_lines_one_label :
  forall df actors,
    length (snd (subnational_lines df actors)) = length actors /\
    map line_label (snd (subnational_lines df actors))
    = match actors with
      | [] => []
      | _ :: rest => Some "Subnational" :: map (fun _ => None) rest
      end.
Proof.
  intros df actors. split.
  - rewrite <- (length_map line_label).
    unfold subnational_lines. rewrite subnational_lines_from.
    destruct actors; cbn; [reflexivity|]. rewrite length_map. reflexivity.
  - unfold subnational_lines. rewrite subnational_lines_from.
    destruct actors; reflexivity.
Qed.

End Legend.
